(** * Verification of the KPI scoring, approval workflow and organisation
    tree of kpimanagerchc (services/kpiScoring.js, routes/kpis.js,
    server.js).

    JavaScript numbers are modelled as rationals [Q]: every finite double
    is a rational, and comparisons between finite doubles are exact, so the
    threshold tests of [scoreKpi] are modelled exactly.  The rounding of
    [parseFloat] and of double arithmetic to the nearest double is not
    modelled (decimal literals are read exactly).  The exception is the
    weight check of [POST /puestos/:id], whose outcome depends on double
    rounding: there the weights, their sum and the tolerance are binary64
    values ([spec_float] of the Standard Library), with the correctly
    rounded decimal conversion of [parseFloat]. *)

From Stdlib Require Import ZArith QArith Qround Qabs String Ascii List Bool Lia Lqa SpecFloat.
Import ListNotations.
Open Scope string_scope.
Open Scope Z_scope.

(** ** JavaScript values and the string helpers the code uses *)

(** The values a request body, a MySQL row or a KPI field can hold. *)
Inductive JVal : Type :=
| JNull
| JUndefined
| JNum (q : Q)
| JStr (s : string).

Definition is_js_space (c : ascii) : bool :=
  let n := nat_of_ascii c in
  (Nat.eqb n 32 || Nat.eqb n 9 || Nat.eqb n 10 || Nat.eqb n 11
   || Nat.eqb n 12 || Nat.eqb n 13)%bool.

Fixpoint trim_start (s : string) : string :=
  match s with
  | EmptyString => EmptyString
  | String c r => if is_js_space c then trim_start r else s
  end.

Fixpoint rev_str (s : string) (acc : string) : string :=
  match s with
  | EmptyString => acc
  | String c r => rev_str r (String c acc)
  end.

(** [String.prototype.trim] (ASCII white space). *)
Definition trim (s : string) : string :=
  rev_str (trim_start (rev_str (trim_start s) EmptyString)) EmptyString.

(** [s.replace(c, r)] with a one-character pattern: only the first
    occurrence is replaced. *)
Fixpoint replace_first (c : ascii) (r : string) (s : string) : string :=
  match s with
  | EmptyString => EmptyString
  | String d t => if Ascii.eqb c d then r ++ t else String d (replace_first c r t)
  end.

Definition ascii_upper (c : ascii) : ascii :=
  let n := nat_of_ascii c in
  if (Nat.leb 97 n && Nat.leb n 122)%bool then ascii_of_nat (n - 32) else c.

(** [String.prototype.toUpperCase] on ASCII text. *)
Fixpoint to_upper (s : string) : string :=
  match s with
  | EmptyString => EmptyString
  | String c r => String (ascii_upper c) (to_upper r)
  end.

(** [x || d] for a string field that may be [null]. *)
Definition or_default (x : option string) (d : string) : string :=
  match x with
  | None => d
  | Some "" => d
  | Some s => s
  end.

(** ** [parseFloat] *)

Definition digit_of (c : ascii) : option Z :=
  let n := nat_of_ascii c in
  if (Nat.leb 48 n && Nat.leb n 57)%bool then Some (Z.of_nat (n - 48)) else None.

(** The maximal prefix of decimal digits: (value, number of digits, rest). *)
Fixpoint read_digits (s : string) (acc : Z) (k : nat) : Z * nat * string :=
  match s with
  | EmptyString => (acc, k, s)
  | String c r =>
      match digit_of c with
      | Some d => read_digits r (acc * 10 + d) (S k)
      | None => (acc, k, s)
      end
  end.

Definition read_sign (s : string) : Z * string :=
  match s with
  | String "-"%char r => (-1, r)
  | String "+"%char r => (1, r)
  | _ => (1, s)
  end.

(** An optional exponent [e±ddd]; malformed exponents are not consumed. *)
Definition read_exponent (s : string) : Z :=
  match s with
  | String c r =>
      if (Ascii.eqb c "e"%char || Ascii.eqb c "E"%char)%bool then
        let '(sg, r') := read_sign r in
        let '(v, k, _) := read_digits r' 0 O in
        if Nat.eqb k O then 0 else sg * v
      else 0
  | EmptyString => 0
  end.

Definition pow10 (e : Z) : Q :=
  if (e <? 0)%Z then Qinv (inject_Z (10 ^ (- e))%Z) else inject_Z (10 ^ e)%Z.

(** [parseFloat(s)] when its result is a finite number; [None] stands
    for [NaN] (no digits) and for [Infinity]. *)
Definition parseFloat (s : string) : option Q :=
  let s0 := trim_start s in
  let '(sg, s1) := read_sign s0 in
  if String.prefix "Infinity" s1 then None else
  let '(ip, ki, s2) := read_digits s1 0 O in
  let '(mant, kf, s3) :=
    match s2 with
    | String "."%char r => read_digits r ip O
    | _ => (ip, O, s2)
    end in
  if Nat.eqb (ki + kf) O then None
  else Some (inject_Z (sg * mant) * pow10 (read_exponent s3 - Z.of_nat kf))%Q.

(** services/kpiScoring.js, [toNumberOrNull]. *)
Definition toNumberOrNull (v : JVal) : option Q :=
  match v with
  | JNull | JUndefined => None
  | JNum q => Some q
  | JStr str =>
      let s := replace_first ","%char "." (trim (replace_first "%"%char "" str)) in
      if String.eqb s "" then None else parseFloat s
  end.

(** ** ScoreClassifier: services/kpiScoring.js, [scoreKpi] *)

(** A row of the [kpis] table, with the fields [scoreKpi] reads. *)
Record kpi := mkKpi {
  score_type : option string;
  direction : option string;
  threshold_yellow : JVal;
  threshold_green : JVal;
  criterion_red : option string;
  criterion_yellow : option string;
  criterion_green : option string
}.

(** The result object [{color, score, reason}]. *)
Record score_result := mkScore {
  color : option string;
  score : option Z;
  reason : option string
}.

Definition verde := mkScore (Some "verde") (Some 100) None.
Definition amarillo := mkScore (Some "amarillo") (Some 70) None.
Definition rojo := mkScore (Some "rojo") (Some 40) None.
Definition no_grade (why : string) := mkScore None None (Some why).

Definition R_INVALID := "KPI inválido".
Definition R_NO_CRITERIA := "Sin criterios definidos".
Definition R_NO_MATCH := "Valor no coincide con criterio".
Definition R_NOT_NUMERIC := "Valor no numérico".
Definition R_NO_THRESHOLDS := "Sin umbrales definidos".

(** [String(v)] for the values [scoreKpi] receives; the decimal rendering
    of a number ([Number.prototype.toString]) is a parameter. *)
Definition js_String (num_to_string : Q -> string) (v : JVal) : string :=
  match v with
  | JNull => "null"
  | JUndefined => "undefined"
  | JNum q => num_to_string q
  | JStr s => s
  end.

Definition nonempty (s : string) : bool := negb (String.eqb s "").

(** [scoreKpi(kpi, rawValue)]; [None] for the kpi is the [!kpi] case. *)
Definition scoreKpi (num_to_string : Q -> string) (k : option kpi) (rawValue : JVal)
  : score_result :=
  match k with
  | None => no_grade R_INVALID
  | Some k =>
    let scoreType := to_upper (or_default (score_type k) "") in
    let dir := to_upper (or_default (direction k) "HIGHER_BETTER") in
    if String.eqb scoreType "CRITERION" then
      let v := match rawValue with
               | JNull | JUndefined => ""
               | _ => trim (js_String num_to_string rawValue)
               end in
      let r := trim (or_default (criterion_red k) "") in
      let y := trim (or_default (criterion_yellow k) "") in
      let g := trim (or_default (criterion_green k) "") in
      if (negb (nonempty r) && negb (nonempty y) && negb (nonempty g))%bool
      then no_grade R_NO_CRITERIA
      else if (nonempty g && String.eqb v g)%bool then verde
      else if (nonempty y && String.eqb v y)%bool then amarillo
      else if (nonempty r && String.eqb v r)%bool then rojo
      else no_grade R_NO_MATCH
    else
      match toNumberOrNull rawValue with
      | None => no_grade R_NOT_NUMERIC
      | Some n =>
        match toNumberOrNull (threshold_yellow k), toNumberOrNull (threshold_green k) with
        | Some ty, Some tg =>
          if String.eqb dir "HIGHER_BETTER" then
            if Qle_bool tg n then verde
            else if Qle_bool ty n then amarillo
            else rojo
          else
            if Qle_bool n tg then verde
            else if Qle_bool n ty then amarillo
            else rojo
        | _, _ => no_grade R_NO_THRESHOLDS
        end
      end
  end.

(** ** The trimmed string form a CRITERION value is compared by *)
Definition criterion_input (num_to_string : Q -> string) (rawValue : JVal) : string :=
  match rawValue with
  | JNull | JUndefined => ""
  | _ => trim (js_String num_to_string rawValue)
  end.

(** ** OrgTree: positions and employees *)

(** A row of [puestos]: [id] and [responde_a_id] ([null] = root). *)
Record puesto := mkPuesto {
  p_id : Z;
  responde_a_id : option Z
}.

(** A row of [empleados]: [id] and [puesto_id]. *)
Record empleado := mkEmpleado {
  e_id : Z;
  e_puesto_id : option Z
}.

(** The organisation tables the access checks read. *)
Record org := mkOrg {
  puestos : list puesto;
  empleados : list empleado
}.

(** JavaScript [===] between two ids that may be [null]. *)
Definition opt_eqb (a b : option Z) : bool :=
  match a, b with
  | None, None => true
  | Some x, Some y => Z.eqb x y
  | _, _ => false
  end.

(** routes/kpis.js, [buildSubordinatePuestoIds(puestoId, puestoMap)]: for
    each position reporting to [puestoId], its id followed by its own
    subordinates.  The JavaScript recursion is unbounded; here it carries
    a fuel bound, which on an acyclic [responde_a_id] graph is never
    exhausted with [length puestoMap + 1] (the depth of any chain).  On a
    cycle below [puestoId] the JavaScript recursion never returns (the
    stack overflows and the calling route answers 500 without writing),
    while this bounded version returns a truncated list: statements that
    go through the access check assume an acyclic hierarchy. *)
Fixpoint subordinates_fuel (fuel : nat) (puestoId : option Z) (puestoMap : list puesto)
  : list Z :=
  match fuel with
  | O => []
  | S f =>
      flat_map (fun p => if opt_eqb (responde_a_id p) puestoId
                         then p_id p :: subordinates_fuel f (Some (p_id p)) puestoMap
                         else []) puestoMap
  end.

Definition buildSubordinatePuestoIds (puestoId : option Z) (puestoMap : list puesto)
  : list Z :=
  subordinates_fuel (S (length puestoMap)) puestoId puestoMap.

(** [SELECT ... FROM empleados WHERE id = ? LIMIT 1]. *)
Definition find_empleado (o : org) (id : Z) : option empleado :=
  find (fun e => Z.eqb (e_id e) id) (empleados o).

Definition find_puesto (o : org) (id : Z) : option puesto :=
  find (fun p => Z.eqb (p_id p) id) (puestos o).

(** [SELECT p.responde_a_id FROM empleados e LEFT JOIN puestos p
    ON p.id = e.puesto_id WHERE e.id = ? LIMIT 1]: [None] when there is no
    row, [Some None] when the joined column is [NULL]. *)
Definition responde_a_of (o : org) (employeeId : Z) : option (option Z) :=
  match find_empleado o employeeId with
  | None => None
  | Some e =>
      Some match e_puesto_id e with
           | None => None
           | Some pid => match find_puesto o pid with
                         | None => None
                         | Some p => responde_a_id p
                         end
           end
  end.

(** [SELECT puesto_id FROM empleados WHERE id = ?]. *)
Definition target_puesto (o : org) (employeeId : Z) : option Z :=
  match find_empleado o employeeId with
  | None => None
  | Some e => e_puesto_id e
  end.

(** ** AccessPolicy *)

(** The session user [{id, role, puesto_id}]. *)
Record user := mkUser {
  u_id : Z;
  u_role : string;
  u_puesto_id : option Z
}.

(** [user.role === 'admin' || user.role === 'manager']. *)
Definition elevated (u : user) : bool :=
  (String.eqb (u_role u) "admin" || String.eqb (u_role u) "manager")%bool.

(** [Number(x)] for an id that may be [null] ([Number(null) = 0]). *)
Definition js_Number (x : option Z) : Z :=
  match x with None => 0 | Some z => z end.

(** [isDirectBossByPuesto(user, targetEmployeeId)]; the id [0] is falsy. *)
Definition isDirectBossByPuesto (o : org) (u : user) (targetEmployeeId : Z) : bool :=
  if Z.eqb targetEmployeeId 0 then false
  else if elevated u then true
  else match responde_a_of o targetEmployeeId with
       | None => false
       | Some None => false
       | Some (Some respondeA) => Z.eqb respondeA (js_Number (u_puesto_id u))
       end.

(** [employeeHasNoDirectBoss(employeeId)]. *)
Definition employeeHasNoDirectBoss (o : org) (employeeId : Z) : bool :=
  match responde_a_of o employeeId with
  | None => true
  | Some None => true
  | Some (Some _) => false
  end.

(** The subordinate test shared by [canAccessEmployeeTree] and the inline
    check of [/save]: [!!targetPuestoId && subordinates.includes(targetPuestoId)]. *)
Definition in_subordinate_tree (o : org) (u : user) (targetEmployeeId : Z) : bool :=
  let subordinatePuestos := buildSubordinatePuestoIds (u_puesto_id u) (puestos o) in
  match target_puesto o targetEmployeeId with
  | None => false
  | Some tp => (negb (Z.eqb tp 0) && existsb (Z.eqb tp) subordinatePuestos)%bool
  end.

(** [canAccessEmployeeTree(user, targetEmployeeId)]. *)
Definition canAccessEmployeeTree (o : org) (u : user) (targetEmployeeId : Z) : bool :=
  (elevated u || Z.eqb targetEmployeeId (u_id u) || in_subordinate_tree o u targetEmployeeId)%bool.

(** ** ResultLifecycle: the [kpi_resultados] table *)

(** A row of [kpi_resultados] (timestamps as integers). *)
Record row := mkRow {
  valor : JVal;
  r_color : option string;
  comentario : option string;
  visto_bueno : Z;
  visto_por : option Z;
  visto_fecha : option Z;
  revision_por : option Z;
  revision_fecha : option Z;
  revision_motivo : option string
}.

(** The unique key [(empleado_id, kpi_id, anio, mes)]. *)
Definition rkey : Type := (Z * Z * Z * Z)%type.

Definition rkey_eqb (a b : rkey) : bool :=
  let '(e1, k1, y1, m1) := a in
  let '(e2, k2, y2, m2) := b in
  (Z.eqb e1 e2 && Z.eqb k1 k2 && Z.eqb y1 y2 && Z.eqb m1 m2)%bool.

Definition table : Type := rkey -> option row.

Definition tbl_set (t : table) (k : rkey) (r : row) : table :=
  fun k' => if rkey_eqb k k' then Some r else t k'.

(** [INSERT ... VALUES (...) ON DUPLICATE KEY UPDATE ...]: a new row is
    [upd] applied to the row of column defaults [dflt], an existing one
    is [upd] applied to itself (every upsert of the code writes the same
    values in both branches). *)
Definition upsert (dflt : row) (t : table) (k : rkey) (upd : row -> row) : table :=
  match t k with
  | None => tbl_set t k (upd dflt)
  | Some r => tbl_set t k (upd r)
  end.

Definition set_value (v : JVal) (c : option string) (cm : option string) (r : row) : row :=
  mkRow v c cm (visto_bueno r) (visto_por r) (visto_fecha r)
        (revision_por r) (revision_fecha r) (revision_motivo r).

Definition set_comment (cm : option string) (r : row) : row :=
  mkRow (valor r) (r_color r) cm (visto_bueno r) (visto_por r) (visto_fecha r)
        (revision_por r) (revision_fecha r) (revision_motivo r).

(** [/visto]: [visto_bueno = 1, visto_por, visto_fecha = NOW()] and the
    review columns set to [NULL]. *)
Definition set_approved (actor now : Z) (r : row) : row :=
  mkRow (valor r) (r_color r) (comentario r) 1 (Some actor) (Some now) None None None.

(** [/review]: [visto_bueno = 0], approval columns [NULL], review set. *)
Definition set_review (actor now : Z) (motivo : string) (r : row) : row :=
  mkRow (valor r) (r_color r) (comentario r) 0 None None (Some actor) (Some now) (Some motivo).

(** Errors answered by the routes (400, 404, 403, 423). *)
Inductive error : Type :=
| BadRequest
| NotFound
| Forbidden
| Locked.

Inductive response (A : Type) : Type :=
| Ok (a : A)
| Err (e : error).
Arguments Ok {A} a.
Arguments Err {A} e.

(** [x || null] for a body field. *)
Definition or_null (x : option string) : option string :=
  match x with
  | Some "" => None
  | _ => x
  end.

(** [hasValue] of [/save]: [valor] is not [undefined], [null] or blank
    ([String] of a number is never blank). *)
Definition hasValue (v : JVal) : bool :=
  match v with
  | JNull | JUndefined => false
  | JNum _ => true
  | JStr s => negb (String.eqb (trim s) "")
  end.

(** The score of a manual color in [/save]. *)
Definition manual_score (c : string) : option Z :=
  if String.eqb c "rojo" then Some 40
  else if String.eqb c "amarillo" then Some 70
  else if String.eqb c "verde" then Some 100
  else None.

(** The body of [POST /dashboard/save]; [None] is a missing or empty field,
    [s_empleado_id] is the parsed [empleado_id] when given. *)
Record save_req := mkSaveReq {
  s_kpi_id : option Z;
  s_anio : option Z;
  s_mes : option Z;
  s_valor : JVal;
  s_color : option string;
  s_empleado_id : option Z;
  s_comentario : option string
}.

Definition target_of (u : user) (empleado_id : option Z) : Z :=
  match empleado_id with Some e => e | None => u_id u end.

(** The lock test of [/save]: [canEditLocked] for a row in state APPROVED. *)
Definition canEditLocked (o : org) (u : user) (lockedBy : option Z) : bool :=
  if elevated u then true
  else match lockedBy with
       | Some l => if Z.eqb l 0 then false
                   else (Z.eqb (u_id u) l || canAccessEmployeeTree o u l)%bool
       | None => false
       end.

(** [POST /dashboard/save]: the answer [{color, puntaje}] and the new table. *)
Definition save (num_to_string : Q -> string) (dflt : row) (kpis : list (Z * kpi))
  (o : org) (t : table) (u : user) (req : save_req)
  : response (option string * option Z) * table :=
  match s_kpi_id req, s_anio req, s_mes req with
  | Some kid, Some anio, Some mes =>
    let hv := hasValue (s_valor req) in
    match find (fun p => Z.eqb (fst p) kid) kpis with
    | None => (Err NotFound, t)
    | Some (_, k) =>
      let '(resultadoColor, sc) :=
        if hv then
          match or_null (s_color req) with
          | None => let r := scoreKpi num_to_string (Some k) (s_valor req) in
                    (color r, score r)
          | Some c => (Some c, manual_score c)
          end
        else (or_null (s_color req), None) in
      let target := target_of u (s_empleado_id req) in
      if (negb (Z.eqb target (u_id u)) && negb (elevated u)
          && negb (in_subordinate_tree o u target))%bool
      then (Err Forbidden, t)
      else
        let key := (target, kid, anio, mes) in
        let isLocked := match t key with Some r => Z.eqb (visto_bueno r) 1 | None => false end in
        let lockedBy := match t key with Some r => visto_por r | None => None end in
        if (isLocked && negb (canEditLocked o u lockedBy))%bool then (Err Locked, t)
        else
          let t' := if hv
                    then upsert dflt t key
                           (set_value (s_valor req) resultadoColor (or_null (s_comentario req)))
                    else upsert dflt t key (set_comment (or_null (s_comentario req))) in
          (Ok (resultadoColor, sc), t')
    end
  | _, _, _ => (Err BadRequest, t)
  end.

(** The body of [POST /dashboard/visto] and of [/review]. *)
Record mark_req := mkMarkReq {
  m_kpi_id : option Z;
  m_anio : option Z;
  m_mes : option Z;
  m_empleado_id : option Z
}.

(** The approval rule of [/visto]. *)
Definition canApprove (o : org) (u : user) (target : Z) : bool :=
  if elevated u then true
  else if Z.eqb target (u_id u) then employeeHasNoDirectBoss o (u_id u)
  else isDirectBossByPuesto o u target.

(** [POST /dashboard/visto] at time [now]. *)
Definition visto (dflt : row) (o : org) (t : table) (u : user) (now : Z) (req : mark_req)
  : response unit * table :=
  match m_kpi_id req, m_anio req, m_mes req with
  | Some kid, Some anio, Some mes =>
    let target := target_of u (m_empleado_id req) in
    if negb (canApprove o u target) then (Err Forbidden, t)
    else (Ok tt, upsert dflt t (target, kid, anio, mes) (set_approved (u_id u) now))
  | _, _, _ => (Err BadRequest, t)
  end.

(** [(revision_motivo || '').toString().trim().slice(0, 255)].  Strings
    are modelled as byte strings, which agrees with the JavaScript UTF-16
    code units on ASCII text; for other text [slice] counts code units
    and keeps up to 255 of them, this model up to 255 bytes. *)
Definition motivo_of (m : option string) : string :=
  substring 0 255 (trim (or_default m "")).

(** [sendToReviewHandler] at time [now]. *)
Definition sendToReview (dflt : row) (o : org) (t : table) (u : user) (now : Z)
  (req : mark_req) (revision_motivo_in : option string) : response unit * table :=
  match m_kpi_id req, m_anio req, m_mes req with
  | Some kid, Some anio, Some mes =>
    let target := target_of u (m_empleado_id req) in
    if negb (canAccessEmployeeTree o u target) then (Err Forbidden, t)
    else if (negb (elevated u) && Z.eqb target (u_id u))%bool then (Err Forbidden, t)
    else (Ok tt, upsert dflt t (target, kid, anio, mes)
                   (set_review (u_id u) now (motivo_of revision_motivo_in)))
  | _, _, _ => (Err BadRequest, t)
  end.

(** ** Chains of superiors *)

(** [reaches ps x P]: following [responde_a_id] upward from position [x]
    eventually reaches [P]. *)
Inductive reaches (ps : list puesto) : Z -> Z -> Prop :=
| reach_direct (p : puesto) (P : Z) :
    In p ps -> responde_a_id p = Some P -> reaches ps (p_id p) P
| reach_up (p : puesto) (y P : Z) :
    In p ps -> responde_a_id p = Some y -> reaches ps y P -> reaches ps (p_id p) P.

(** The [responde_a_id] graph is acyclic. *)
Definition acyclic (ps : list puesto) : Prop := forall x, ~ reaches ps x x.

(** The upward chain from [x] to [P], as the list of positions left
    behind (P excluded). *)
Inductive chain (ps : list puesto) : list Z -> Z -> Z -> Prop :=
| chain_one (p : puesto) (P : Z) :
    In p ps -> responde_a_id p = Some P -> chain ps [p_id p] (p_id p) P
| chain_cons (p : puesto) (y P : Z) (l : list Z) :
    In p ps -> responde_a_id p = Some y -> chain ps l y P -> chain ps (p_id p :: l) (p_id p) P.

(** ** PeriodResolver: routes/kpis.js, [getDefaultPeriod] *)

(** The fields of a [Date] the function reads: [getFullYear()],
    [getMonth()] (0-11) and [getDate()]. *)
Record date := mkDate {
  full_year : Z;
  month0 : Z;
  day_of_month : Z
}.

Definition getDefaultPeriod (now : date) : Z * Z :=
  let year := full_year now in
  let month := month0 now + 1 in
  if (day_of_month now <=? 10)%Z then
    let month := month - 1 in
    if (month <? 1)%Z then (year - 1, 12) else (year, month)
  else (year, month).

(** ** Weight assignment: server.js, [POST /puestos/:id] *)












(** ** Weighted score: routes/kpis.js, [buildEmployeeWorkbook] *)

(** The "Puntaje ponderado" of a row, before its [toFixed(2)] rendering:
    [puntaje * (pesoVal / 100)] when the weight parses and the score is a
    number, empty ([None]) otherwise. *)
Definition weighted_cell (puntaje : option Z) (peso : JVal) : option Q :=
  match toNumberOrNull peso, puntaje with
  | Some pesoVal, Some p => Some (inject_Z p * (pesoVal / 100))%Q
  | _, _ => None
  end.

(** Modelled from the spec: the position-level total of the
    WeightedAggregator (section 4.6), which src/ does not compute (the
    workbook shows only each row's weighted score).  Each entry
    [{score, weight}] adds its weighted score; an entry without one adds
    nothing and is counted as missing.  Result: (total, missing). *)
Definition aggregate (results : list (option Z * JVal)) : Q * nat :=
  fold_right (fun e acc =>
                match weighted_cell (fst e) (snd e) with
                | Some x => ((x + fst acc)%Q, snd acc)
                | None => (fst acc, S (snd acc))
                end) (0%Q, O) results.

(** ** The result lifecycle as a sequence of requests *)

(** A request to [/save], [/visto] or [/review], with the organisation
    and KPI tables current when it is served. *)
Inductive op : Type :=
| OpSave (kpis : list (Z * kpi)) (o : org) (u : user) (req : save_req)
| OpApprove (o : org) (u : user) (now : Z) (req : mark_req)
| OpReview (o : org) (u : user) (now : Z) (req : mark_req) (motivo : option string).

Definition apply_op (num_to_string : Q -> string) (dflt : row) (t : table) (x : op) : table :=
  match x with
  | OpSave kpis o u req => snd (save num_to_string dflt kpis o t u req)
  | OpApprove o u now req => snd (visto dflt o t u now req)
  | OpReview o u now req m => snd (sendToReview dflt o t u now req m)
  end.

Definition run (num_to_string : Q -> string) (dflt : row) (ops : list op) (t : table) : table :=
  fold_left (apply_op num_to_string dflt) ops t.

(** An approved row has no pending review. *)
Definition row_inv (r : row) : Prop :=
  visto_bueno r = 1 ->
  revision_por r = None /\ revision_fecha r = None /\ revision_motivo r = None.

Definition table_inv (t : table) : Prop :=
  forall k r, t k = Some r -> row_inv r.

(** ** Colours and status in the Excel export: routes/kpis.js *)

Definition ascii_lower (c : ascii) : ascii :=
  let n := nat_of_ascii c in
  if (Nat.leb 65 n && Nat.leb n 90)%bool then ascii_of_nat (n + 32) else c.

(** [String.prototype.toLowerCase] on ASCII text. *)
Fixpoint to_lower (s : string) : string :=
  match s with
  | EmptyString => EmptyString
  | String c r => String (ascii_lower c) (to_lower r)
  end.

(** [normalizeColor(color)]: trimmed, lower-cased, English names mapped. *)
Definition normalizeColor (color : option string) : string :=
  let c := to_lower (trim (or_default color "")) in
  if String.eqb c "red" then "rojo"
  else if String.eqb c "yellow" then "amarillo"
  else if String.eqb c "green" then "verde"
  else c.

(** [scoreFromColor(color)]. *)
Definition scoreFromColor (color : string) : option Z :=
  if String.eqb color "rojo" then Some 40
  else if String.eqb color "amarillo" then Some 70
  else if String.eqb color "verde" then Some 100
  else None.

(** The "Puntaje" of a row of the employee workbook:
    [scoreFromColor(normalizeColor(r.color || ''))]. *)
Definition workbook_puntaje (color : option string) : option Z :=
  scoreFromColor (normalizeColor color).

(** [statusFromResult(r)]; a missing result is the empty object [{}].
    [revision_por] is truthy when it is a non-zero id. *)
Definition statusFromResult (r : option row) : string :=
  match r with
  | None => "ABIERTO"
  | Some r =>
      if Z.eqb (visto_bueno r) 1 then "APROBADO"
      else match revision_por r with
           | Some z => if Z.eqb z 0 then "ABIERTO" else "EN REVISIÓN"
           | None => "ABIERTO"
           end
  end.

(** ** Period of the dashboard: [GET /dashboard] and [GET /dashboard/subtree] *)

(** The selected period from the parsed [anio] and [mes] query fields
    ([None] for [NaN]): [0] or [NaN] fall back to the default period, and
    so does a month outside 1-12. *)
Definition selectPeriod (anio mes : option Z) (now : date) : Z * Z :=
  let def := getDefaultPeriod now in
  let selectedYear := match anio with
                      | Some y => if Z.eqb y 0 then fst def else y
                      | None => fst def
                      end in
  let selectedMonth := match mes with
                       | Some m => if (Z.eqb m 0 || (m <? 1) || (12 <? m))%bool then snd def else m
                       | None => snd def
                       end in
  (selectedYear, selectedMonth).

(** ** Feedback: [POST /dashboard/feedback/save] *)

(** A row of [retroalimentacion]. *)
Record feedback := mkFeedback {
  fortalezas : string;
  oportunidades : string;
  compromisos : string
}.

(** The table [retroalimentacion], keyed by [(empleado_id, anio, mes)]. *)
Definition fb_table : Type := (Z * Z * Z) -> option feedback.

Definition fb_key_eqb (a b : Z * Z * Z) : bool :=
  let '(e1, y1, m1) := a in
  let '(e2, y2, m2) := b in
  (Z.eqb e1 e2 && Z.eqb y1 y2 && Z.eqb m1 m2)%bool.

Definition fb_set (t : fb_table) (k : Z * Z * Z) (f : feedback) : fb_table :=
  fun k' => if fb_key_eqb k k' then Some f else t k'.

(** The body: [anio] and [mes] parsed with [parseInt] ([None] for [NaN]),
    [empleado_id] parsed when given. *)
Record feedback_req := mkFeedbackReq {
  f_anio : option Z;
  f_mes : option Z;
  f_fortalezas : option string;
  f_oportunidades : option string;
  f_compromisos : option string;
  f_empleado_id : option Z
}.

(** The route; [ON DUPLICATE KEY UPDATE] rewrites the three texts. *)
Definition feedback_save (o : org) (t : fb_table) (u : user) (req : feedback_req)
  : response unit * fb_table :=
  match f_anio req, f_mes req with
  | Some year, Some month =>
    if (Z.eqb year 0 || Z.eqb month 0)%bool then (Err BadRequest, t)
    else
      let target := target_of u (f_empleado_id req) in
      if negb (canAccessEmployeeTree o u target) then (Err Forbidden, t)
      else (Ok tt, fb_set t (target, year, month)
                     (mkFeedback (or_default (f_fortalezas req) "")
                                 (or_default (f_oportunidades req) "")
                                 (or_default (f_compromisos req) "")))
  | _, _ => (Err BadRequest, t)
  end.

(** ** KPI thresholds on create and update: routes/kpis.js *)

(** A JavaScript number as [Number()] can produce it. *)
Inductive jsnum : Type :=
| JFin (q : Q)
| JInf (neg : bool)
| JNaN.

(** The value of a hexadecimal digit when it is below [radix]. *)
Definition radix_digit (radix : Z) (c : ascii) : option Z :=
  let n := Z.of_nat (nat_of_ascii c) in
  let v := if (48 <=? n) && (n <=? 57) then Some (n - 48)
           else if (97 <=? n) && (n <=? 102) then Some (n - 87)
           else if (65 <=? n) && (n <=? 70) then Some (n - 55)
           else None in
  match v with
  | Some d => if d <? radix then Some d else None
  | None => None
  end.

Fixpoint read_radix (radix : Z) (s : string) (acc : Z) (k : nat) : Z * nat * string :=
  match s with
  | EmptyString => (acc, k, s)
  | String c r =>
      match radix_digit radix c with
      | Some d => read_radix radix r (acc * radix + d) (S k)
      | None => (acc, k, s)
      end
  end.

(** A [StrUnsignedDecimalLiteral] other than [Infinity] spanning the
    whole string: digits, an optional fraction, an optional exponent. *)
Definition unsigned_decimal (s : string) : option Q :=
  let '(ip, ki, s2) := read_digits s 0 O in
  let '(mant, kf, s3) :=
    match s2 with
    | String "."%char r => read_digits r ip O
    | _ => (ip, O, s2)
    end in
  if Nat.eqb (ki + kf) O then None
  else match s3 with
       | EmptyString => Some (inject_Z mant * pow10 (- Z.of_nat kf))%Q
       | String c r =>
           if (Ascii.eqb c "e"%char || Ascii.eqb c "E"%char)%bool then
             let '(sg, r') := read_sign r in
             let '(v, k, r'') := read_digits r' 0 O in
             if Nat.eqb k O then None
             else match r'' with
                  | EmptyString => Some (inject_Z mant * pow10 (sg * v - Z.of_nat kf))%Q
                  | _ => None
                  end
           else None
       end.

(** A [NonDecimalIntegerLiteral] ([0x], [0o], [0b]) spanning the string. *)
Definition non_decimal (s : string) : option Q :=
  match s with
  | String "0"%char (String c r) =>
      let radix := if (Ascii.eqb c "x"%char || Ascii.eqb c "X"%char)%bool then 16
                   else if (Ascii.eqb c "o"%char || Ascii.eqb c "O"%char)%bool then 8
                   else if (Ascii.eqb c "b"%char || Ascii.eqb c "B"%char)%bool then 2
                   else 0 in
      if Z.eqb radix 0 then None
      else let '(v, k, rest) := read_radix radix r 0 O in
           if Nat.eqb k O then None
           else match rest with
                | EmptyString => Some (inject_Z v)
                | _ => None
                end
  | _ => None
  end.

(** [Number(s)] for a string (ASCII white space; decimal literals read
    exactly): blank is [0], otherwise the whole trimmed text must be a
    numeric literal, else [NaN]. *)
Definition StringToNumber (str : string) : jsnum :=
  let s := trim str in
  if String.eqb s "" then JFin 0
  else match non_decimal s with
       | Some q => JFin q
       | None =>
         let '(sg, r) := read_sign s in
         if String.eqb r "Infinity" then JInf (sg <? 0)
         else match unsigned_decimal r with
              | Some q => JFin (inject_Z sg * q)%Q
              | None => JNaN
              end
       end.

(** A threshold field on its way to the [INSERT]/[UPDATE]: the request
    string, or the number [clampPct100] turned it into. *)
Inductive field : Type :=
| FUndefined
| FNull
| FStr (s : string)
| FNum (x : jsnum).

Definition js_Number_field (v : field) : jsnum :=
  match v with
  | FUndefined => JNaN
  | FNull => JFin 0
  | FStr s => StringToNumber s
  | FNum x => x
  end.

(** [Math.min(num, 100)] for a number that is not [NaN]. *)
Definition js_min100 (x : jsnum) : jsnum :=
  match x with
  | JFin q => JFin (if Qle_bool q 100 then q else 100)
  | JInf false => JFin 100
  | JInf true => JInf true
  | JNaN => JNaN
  end.

(** [clampPct100(val)]. *)
Definition clampPct100 (v : field) : field :=
  match v with
  | FUndefined | FNull | FStr EmptyString => FNull
  | _ => match js_Number_field v with
         | JNaN => FNull
         | num => FNum (js_min100 num)
         end
  end.

(** [toNullableNumber(val)]. For a number [x], [String(x)] holds no
    comma and [Number(String(x))] is [x] again, so a number passes
    through when it is finite. *)
Definition toNullableNumber (v : field) : option Q :=
  match v with
  | FUndefined | FNull | FStr EmptyString => None
  | FStr s => match StringToNumber (replace_first ","%char "." s) with
              | JFin q => Some q
              | _ => None
              end
  | FNum x => match x with
              | JFin q => Some q
              | _ => None
              end
  end.

(** [(unidad || '').toLowerCase() === 'porcentaje'] *)
Definition is_porcentaje (unidad : option string) : bool :=
  String.eqb (to_lower (or_default unidad "")) "porcentaje".

(** The value [POST /kpis/create] and [POST /kpis/update/:id] write for
    [threshold_yellow] or [threshold_green]: clamped to 100 for a
    percentage KPI, then [toNullableNumber]. *)
Definition stored_threshold (unidad : option string) (v : field) : option Q :=
  toNullableNumber (if is_porcentaje unidad then clampPct100 v else v).

(** ** The KPI list of a weight assignment: server.js, [POST /puestos/:id] *)

(** The deduplication of [kpi_ids] by [String(id)], keeping the order of
    first appearance. *)
Fixpoint dedup_go (seen : list string) (l : list string) : list string :=
  match l with
  | [] => []
  | id :: r => if existsb (String.eqb id) seen then dedup_go seen r
               else id :: dedup_go (id :: seen) r
  end.

Definition dedup_kpi_ids (kpi_ids : list string) : list string := dedup_go [] kpi_ids.



(** ** Editing a position: server.js, [POST /puestos/editar/:id] *)

(** The hierarchy part of the edit: [nombre] is required, a position may
    not report to itself, otherwise [responde_a_id] of [id] is rewritten
    ([None] is an empty field, stored as [NULL]). *)
Definition editar_puesto (ps : list puesto) (id : Z) (nombre : option string)
  (responde_a : option Z) : response unit * list puesto :=
  match or_null nombre with
  | None => (Err BadRequest, ps)
  | Some _ =>
    let upd := (Ok tt, map (fun p => if Z.eqb (p_id p) id then mkPuesto (p_id p) responde_a else p) ps) in
    match responde_a with
    | Some r => if Z.eqb r id then (Err BadRequest, ps) else upd
    | None => upd
    end
  end.

(* ================================================================== *)
(** * Theorems *)

Lemma nonempty_true (s : string) : nonempty s = true <-> s <> "".
Proof.
  unfold nonempty. rewrite negb_true_iff, String.eqb_neq. tauto.
Qed.

Lemma nonempty_false (s : string) : nonempty s = false <-> s = "".
Proof.
  unfold nonempty. rewrite negb_false_iff, String.eqb_eq. tauto.
Qed.

Lemma Qle_bool_false (x y : Q) : Qle_bool x y = false <-> (y < x)%Q.
Proof.
  split.
  - intro H. apply Qnot_le_lt. intro H'. apply Qle_bool_iff in H'. congruence.
  - intro H. destruct (Qle_bool x y) eqn:E; [|reflexivity].
    apply Qle_bool_iff in E. exfalso. apply (Qlt_not_le y x); assumption.
Qed.

(** C1. For a NUMBER or PERCENT KPI whose thresholds both parse and a raw
    value parsing to [n]: under HIGHER_BETTER the grade is green/100 iff
    [n >= green], otherwise yellow/70 iff [n >= yellow], otherwise red/40;
    under LOWER_BETTER the same with [<=]. Both boundaries are inclusive
    and green is tested first. *)
Theorem scoreKpi_numeric_thresholds (num_to_string : Q -> string) (k : kpi)
  (rawValue : JVal) (n ty tg : Q) :
  In (to_upper (or_default (score_type k) "")) ["NUMBER"; "PERCENT"] ->
  toNumberOrNull (threshold_yellow k) = Some ty ->
  toNumberOrNull (threshold_green k) = Some tg ->
  toNumberOrNull rawValue = Some n ->
  (to_upper (or_default (direction k) "HIGHER_BETTER") = "HIGHER_BETTER" ->
     ((tg <= n)%Q -> scoreKpi num_to_string (Some k) rawValue = verde) /\
     ((n < tg)%Q -> (ty <= n)%Q -> scoreKpi num_to_string (Some k) rawValue = amarillo) /\
     ((n < tg)%Q -> (n < ty)%Q -> scoreKpi num_to_string (Some k) rawValue = rojo)) /\
  (to_upper (or_default (direction k) "HIGHER_BETTER") = "LOWER_BETTER" ->
     ((n <= tg)%Q -> scoreKpi num_to_string (Some k) rawValue = verde) /\
     ((tg < n)%Q -> (n <= ty)%Q -> scoreKpi num_to_string (Some k) rawValue = amarillo) /\
     ((tg < n)%Q -> (ty < n)%Q -> scoreKpi num_to_string (Some k) rawValue = rojo)).
Proof.
  intros Hty Hy Hg Hn.
  assert (Hnc : String.eqb (to_upper (or_default (score_type k) "")) "CRITERION" = false)
    by (destruct Hty as [<- | [<- | []]]; reflexivity).
  unfold scoreKpi. rewrite Hnc, Hn, Hy, Hg.
  split; intro Hd; rewrite Hd; simpl.
  - repeat split; intros.
    + apply Qle_bool_iff in H. now rewrite H.
    + apply Qle_bool_false in H. apply Qle_bool_iff in H0. now rewrite H, H0.
    + apply Qle_bool_false in H. apply Qle_bool_false in H0. now rewrite H, H0.
  - repeat split; intros.
    + apply Qle_bool_iff in H. now rewrite H.
    + apply Qle_bool_false in H. apply Qle_bool_iff in H0. now rewrite H, H0.
    + apply Qle_bool_false in H. apply Qle_bool_false in H0. now rewrite H, H0.
Qed.

Definition kpi_number_80_90 (d : string) : kpi :=
  mkKpi (Some "NUMBER") (Some d) (JStr "80") (JStr "90") None None None.

Lemma scoreKpi_numeric_thresholds_witness :
  In (to_upper (or_default (score_type (kpi_number_80_90 "higher_better")) ""))
     ["NUMBER"; "PERCENT"] /\
  toNumberOrNull (threshold_yellow (kpi_number_80_90 "higher_better")) = Some 80%Q /\
  toNumberOrNull (threshold_green (kpi_number_80_90 "higher_better")) = Some 90%Q /\
  toNumberOrNull (JStr "90%") = Some 90%Q /\
  scoreKpi (fun _ => "") (Some (kpi_number_80_90 "higher_better")) (JStr "90%") = verde.
Proof.
  split; [left; reflexivity|]. split; [reflexivity|]. split; [reflexivity|].
  split; [reflexivity|].
  refine (proj1 (proj1 (scoreKpi_numeric_thresholds (fun _ => "")
    (kpi_number_80_90 "higher_better") (JStr "90%") 90 80 90
    (or_introl eq_refl) eq_refl eq_refl eq_refl) eq_refl) _).
  apply Qle_refl.
Defined.

(** C2. For a CRITERION KPI, with [v] the trimmed string form of the raw
    value and [g], [y], [r] the trimmed criterion strings (configured when
    non-empty): no configured criterion gives grade none with reason
    "Sin criterios definidos"; otherwise the first exact, case-sensitive
    match in the order green, yellow, red wins (green/100, yellow/70,
    red/40), and a value matching none gives grade none with reason
    "Valor no coincide con criterio", never red. *)
Theorem scoreKpi_criterion (num_to_string : Q -> string) (k : kpi) (rawValue : JVal) :
  to_upper (or_default (score_type k) "") = "CRITERION" ->
  let v := criterion_input num_to_string rawValue in
  let r := trim (or_default (criterion_red k) "") in
  let y := trim (or_default (criterion_yellow k) "") in
  let g := trim (or_default (criterion_green k) "") in
  let res := scoreKpi num_to_string (Some k) rawValue in
  (g = "" /\ y = "" /\ r = "" -> res = no_grade R_NO_CRITERIA) /\
  (g <> "" -> v = g -> res = verde) /\
  (~ (g <> "" /\ v = g) -> y <> "" -> v = y -> res = amarillo) /\
  (~ (g <> "" /\ v = g) -> ~ (y <> "" /\ v = y) -> r <> "" -> v = r -> res = rojo) /\
  (~ (g <> "" /\ v = g) -> ~ (y <> "" /\ v = y) -> ~ (r <> "" /\ v = r) ->
     (g <> "" \/ y <> "" \/ r <> "") -> res = no_grade R_NO_MATCH).
Proof.
  intros Hc v r y g res. subst res.
  unfold scoreKpi. rewrite Hc. simpl String.eqb.
  change (match rawValue with JNull | JUndefined => "" | _ => trim (js_String num_to_string rawValue) end)
    with v.
  fold r y g. clearbody v r y g.
  destruct (nonempty g) eqn:Eg; destruct (nonempty y) eqn:Ey; destruct (nonempty r) eqn:Er;
    destruct (String.eqb v g) eqn:Vg; destruct (String.eqb v y) eqn:Vy;
    destruct (String.eqb v r) eqn:Vr;
    repeat match goal with
           | H : String.eqb _ _ = true |- _ => apply String.eqb_eq in H
           | H : String.eqb _ _ = false |- _ => apply String.eqb_neq in H
           | H : nonempty _ = true |- _ => apply nonempty_true in H
           | H : nonempty _ = false |- _ => apply nonempty_false in H
           end; simpl;
    repeat split; intros; try reflexivity; try tauto; try (exfalso; congruence).
Qed.

Definition kpi_criterion_si_no : kpi :=
  mkKpi (Some "criterion") None JNull JNull (Some "NO") (Some "") (Some " SI ").

Lemma scoreKpi_criterion_witness :
  to_upper (or_default (score_type kpi_criterion_si_no) "") = "CRITERION" /\
  scoreKpi (fun _ => "") (Some kpi_criterion_si_no) (JStr "SI ") = verde /\
  scoreKpi (fun _ => "") (Some kpi_criterion_si_no) (JStr "si") = no_grade R_NO_MATCH.
Proof.
  split; [reflexivity|].
  destruct (scoreKpi_criterion (fun _ => "") kpi_criterion_si_no (JStr "SI ") eq_refl)
    as [_ [Hg _]].
  destruct (scoreKpi_criterion (fun _ => "") kpi_criterion_si_no (JStr "si") eq_refl)
    as [_ [_ [_ [_ Hn]]]].
  split.
  - apply Hg; [discriminate | reflexivity].
  - apply Hn; [intros [_ H]; discriminate H | intros [H _]; apply H; reflexivity
              | intros [_ H]; discriminate H | left; discriminate].
Defined.

(** ** Approval rule *)

(** Well-formed ids: employee ids are positive (AUTO_INCREMENT), every
    [responde_a_id] is a positive id and no position reports to itself
    (a consequence of the acyclic [responde_a_id] graph). *)
Definition ids_wf (o : org) : Prop :=
  (forall e, In e (empleados o) -> 0 < e_id e) /\
  (forall p r, In p (puestos o) -> responde_a_id p = Some r -> 0 < r /\ r <> p_id p).

(** The session's position is the actor's position in [empleados]. *)
Definition session_ok (o : org) (u : user) : Prop :=
  exists e, find_empleado o (u_id u) = Some e /\ e_puesto_id e = u_puesto_id u.

(** The claim's predicates: the target's position reports to the actor's
    position; the target's position has a [NULL] [responde_a_id]. *)
Definition is_direct_boss (o : org) (u : user) (target : Z) : Prop :=
  exists r, responde_a_of o target = Some (Some r) /\ u_puesto_id u = Some r.

Definition has_no_direct_boss (o : org) (target : Z) : Prop :=
  responde_a_of o target = Some None.

Lemma responde_a_of_wf (o : org) (t r : Z) :
  ids_wf o -> responde_a_of o t = Some (Some r) ->
  exists p, In p (puestos o) /\ responde_a_id p = Some r /\ 0 < r /\ r <> p_id p /\
            exists e, find_empleado o t = Some e /\ e_puesto_id e = Some (p_id p).
Proof.
  intros [_ Hp] H. unfold responde_a_of in H.
  destruct (find_empleado o t) as [e|] eqn:Fe; [|discriminate].
  injection H as H.
  destruct (e_puesto_id e) as [pid|] eqn:Ep; [|discriminate].
  destruct (find_puesto o pid) as [p|] eqn:Fp; [|discriminate].
  unfold find_puesto in Fp. apply find_some in Fp as [Inp Hid].
  apply Z.eqb_eq in Hid. subst pid.
  exists p. destruct (Hp p r Inp H) as [Hpos Hne].
  repeat split; auto. exists e. auto.
Qed.

Lemma find_empleado_wf_nonpos (o : org) (t : Z) :
  ids_wf o -> t <= 0 -> find_empleado o t = None.
Proof.
  intros [He _] Ht. unfold find_empleado.
  destruct (find _ _) as [e|] eqn:F; [|reflexivity].
  apply find_some in F as [Ine Hid]. apply Z.eqb_eq in Hid.
  specialize (He e Ine). lia.
Qed.

(** C3. Under well-formed ids and a session matching [empleados], a
    complete [/visto] request is authorized exactly when the actor has an
    elevated role, or the target's position reports to the actor's
    position, or the actor is the target and the target's position has a
    [NULL] [responde_a_id]; otherwise it is answered [Forbidden] and the
    table is unchanged. *)
Theorem visto_authorization (dflt : row) (o : org) (t : table) (u : user) (now : Z)
  (req : mark_req) (kid anio mes : Z) :
  ids_wf o -> session_ok o u ->
  m_kpi_id req = Some kid -> m_anio req = Some anio -> m_mes req = Some mes ->
  let target := target_of u (m_empleado_id req) in
  (fst (visto dflt o t u now req) = Ok tt <->
     (elevated u = true \/ is_direct_boss o u target \/
      (target = u_id u /\ has_no_direct_boss o target))) /\
  (fst (visto dflt o t u now req) <> Ok tt ->
     fst (visto dflt o t u now req) = Err Forbidden /\ snd (visto dflt o t u now req) = t).
Proof.
  intros Hwf Hs Hk Ha Hm target.
  assert (Hcan : canApprove o u target = true <->
                 (elevated u = true \/ is_direct_boss o u target \/
                  (target = u_id u /\ has_no_direct_boss o target))).
  { unfold canApprove, is_direct_boss, has_no_direct_boss.
    destruct (elevated u) eqn:El; [split; auto|].
    destruct (Z.eqb_spec target (u_id u)) as [Et|Et].
    - rewrite Et. unfold employeeHasNoDirectBoss.
      destruct Hs as [e [Fe Pe]].
      assert (Hr : exists x, responde_a_of o (u_id u) = Some x)
        by (unfold responde_a_of; rewrite Fe; eauto).
      destruct Hr as [x Hx]. rewrite Hx.
      destruct x as [r|].
      + split; [discriminate|].
        intros [H|[[r' [H1 H2]]|[_ H]]]; [discriminate| |discriminate].
        injection H1 as <-.
        destruct (responde_a_of_wf o _ _ Hwf Hx) as [p [_ [_ [_ [Hne [e' [Fe' Pe']]]]]]].
        rewrite Fe in Fe'. injection Fe' as <-. rewrite Pe in Pe'. congruence.
      + split; auto.
    - unfold isDirectBossByPuesto. rewrite El.
      destruct (Z.eqb_spec target 0) as [E0|E0].
      + split; [discriminate|].
        intros [H|[[r [H1 _]]|[H _]]]; [discriminate| |contradiction].
        unfold responde_a_of in H1.
        rewrite (find_empleado_wf_nonpos o target Hwf ltac:(lia)) in H1. discriminate.
      + destruct (responde_a_of o target) as [[r|]|] eqn:Hx.
        * destruct (responde_a_of_wf o _ _ Hwf Hx) as [p [_ [_ [Hpos _]]]].
          split.
          -- intro H. apply Z.eqb_eq in H. right; left. exists r. split; auto.
             destruct (u_puesto_id u); simpl in H; [congruence|lia].
          -- intros [H|[[r' [H1 H2]]|[H _]]]; [discriminate| |contradiction].
             injection H1 as <-. rewrite H2. apply Z.eqb_refl.
        * split; [discriminate|].
          intros [H|[[r' [H1 _]]|[H _]]]; [discriminate|discriminate|contradiction].
        * split; [discriminate|].
          intros [H|[[r' [H1 _]]|[H _]]]; [discriminate|discriminate|contradiction]. }
  unfold visto. rewrite Hk, Ha, Hm. fold target.
  destruct (canApprove o u target) eqn:C; simpl.
  - split; [split; [intros _; apply Hcan; reflexivity | reflexivity]|].
    intro H. contradiction H. reflexivity.
  - split; [|intros _; split; reflexivity].
    split; [discriminate|]. intro H. apply Hcan in H. discriminate.
Qed.

(** A two-level organisation: position 1 is a root, position 2 reports to
    it; employee 10 holds position 1 and employee 20 position 2. *)
Definition org_two : org :=
  mkOrg [mkPuesto 1 None; mkPuesto 2 (Some 1)] [mkEmpleado 10 (Some 1); mkEmpleado 20 (Some 2)].

Definition row_default : row := mkRow JNull None None 0 None None None None None.
Definition empty_table : table := fun _ => None.
Definition boss10 : user := mkUser 10 "user" (Some 1).
Definition worker20 : user := mkUser 20 "user" (Some 2).

Lemma org_two_wf : ids_wf org_two.
Proof.
  split.
  - intros e He. simpl in He. intuition (subst; simpl; lia).
  - intros p r Hp Hr. simpl in Hp.
    destruct Hp as [<-|[<-|[]]]; simpl in Hr; [discriminate|injection Hr as <-; simpl; lia].
Qed.

Lemma visto_authorization_witness :
  ids_wf org_two /\ session_ok org_two boss10 /\
  fst (visto row_default org_two empty_table boss10 0 (mkMarkReq (Some 5) (Some 2024) (Some 3) (Some 20)))
    = Ok tt.
Proof.
  assert (Hs : session_ok org_two boss10) by (exists (mkEmpleado 10 (Some 1)); split; reflexivity).
  split; [exact org_two_wf|]. split; [exact Hs|].
  apply (proj2 (proj1 (visto_authorization row_default org_two empty_table boss10 0
           (mkMarkReq (Some 5) (Some 2024) (Some 3) (Some 20)) 5 2024 3
           org_two_wf Hs eq_refl eq_refl eq_refl))).
  right; left. exists 1. split; reflexivity.
Defined.

(** ** Subordinate positions *)

Lemma reaches_extend (ps : list puesto) (x y P : Z) (p : puesto) :
  reaches ps x y -> In p ps -> p_id p = y -> responde_a_id p = Some P -> reaches ps x P.
Proof.
  intros H Hin Hid Hr. induction H.
  - eapply reach_up; eauto. subst. eapply reach_direct; eauto.
  - eapply reach_up; eauto.
Qed.

Lemma opt_eqb_some (a : option Z) (b : Z) : opt_eqb a (Some b) = true <-> a = Some b.
Proof.
  destruct a as [x|]; simpl; split; intro H; try discriminate.
  - apply Z.eqb_eq in H. congruence.
  - injection H as ->. apply Z.eqb_refl.
Qed.

Lemma subordinates_fuel_sound (ps : list puesto) (f : nat) (P x : Z) :
  In x (subordinates_fuel f (Some P) ps) -> reaches ps x P.
Proof.
  revert P. induction f as [|f IH]; intros P H; simpl in H; [contradiction|].
  apply in_flat_map in H as [p [Hin Hx]].
  destruct (opt_eqb (responde_a_id p) (Some P)) eqn:E; [|contradiction].
  apply opt_eqb_some in E.
  destruct Hx as [<-|Hx].
  - eapply reach_direct; eauto.
  - eapply reaches_extend; eauto.
Qed.

Lemma subordinates_fuel_child (ps : list puesto) (f : nat) (P y : Z) (p : puesto) :
  In y (subordinates_fuel f (Some P) ps) -> In p ps -> responde_a_id p = Some y ->
  In (p_id p) (subordinates_fuel (S f) (Some P) ps).
Proof.
  revert P. induction f as [|f IH]; intros P Hy Hp Hr; simpl in Hy; [contradiction|].
  apply in_flat_map in Hy as [q [Hq Hyq]].
  destruct (opt_eqb (responde_a_id q) (Some P)) eqn:E; [|contradiction].
  apply in_flat_map. exists q. split; [assumption|]. rewrite E. right.
  destruct Hyq as [<-|Hyq].
  - apply in_flat_map. exists p. split; [assumption|].
    rewrite (proj2 (opt_eqb_some _ _) Hr). left. reflexivity.
  - exact (IH (p_id q) Hyq Hp Hr).
Qed.

Lemma chain_complete (ps : list puesto) (l : list Z) (x P : Z) :
  chain ps l x P -> forall f, (length l <= f)%nat -> In x (subordinates_fuel f (Some P) ps).
Proof.
  induction 1 as [p P Hin Hr|p y P l Hin Hr Hc IH]; intros f Hf.
  - destruct f as [|f]; [simpl in Hf; lia|]. simpl.
    apply in_flat_map. exists p. split; [assumption|].
    rewrite (proj2 (opt_eqb_some _ _) Hr). left. reflexivity.
  - destruct f as [|f]; [simpl in Hf; lia|]. simpl in Hf.
    apply (subordinates_fuel_child ps f P y p); auto. apply IH. lia.
Qed.

Lemma reaches_chain (ps : list puesto) (x P : Z) :
  reaches ps x P -> exists l, chain ps l x P.
Proof.
  induction 1 as [p P Hin Hr|p y P Hin Hr _ [l Hl]].
  - eexists. eapply chain_one; eauto.
  - eexists. eapply chain_cons; eauto.
Qed.

Lemma chain_members (ps : list puesto) (l : list Z) (y P : Z) :
  chain ps l y P -> forall z, In z l -> z = y \/ reaches ps y z.
Proof.
  induction 1 as [p P Hin Hr|p y P l Hin Hr Hc IH]; intros z Hz.
  - destruct Hz as [<-|[]]. left. reflexivity.
  - destruct Hz as [<-|Hz]; [left; reflexivity|]. right.
    destruct (IH z Hz) as [->|Hyz].
    + eapply reach_direct; eauto.
    + eapply reach_up; eauto.
Qed.

Lemma chain_nodup (ps : list puesto) (l : list Z) (x P : Z) :
  acyclic ps -> chain ps l x P -> NoDup l.
Proof.
  intros Hac. induction 1 as [p P Hin Hr|p y P l Hin Hr Hc IH].
  - constructor; [intros []|constructor].
  - constructor; [|exact IH].
    intro Hm. destruct (chain_members ps l y P Hc (p_id p) Hm) as [Ey|Hy].
    + apply (Hac (p_id p)). pose proof (reach_direct ps p y Hin Hr) as R. rewrite <- Ey in R. exact R.
    + apply (Hac (p_id p)). eapply reach_up; eauto.
Qed.

Lemma chain_incl (ps : list puesto) (l : list Z) (x P : Z) :
  chain ps l x P -> incl l (map p_id ps).
Proof.
  induction 1 as [p P Hin Hr|p y P l Hin Hr Hc IH]; intros z Hz.
  - destruct Hz as [<-|[]]. apply in_map. assumption.
  - destruct Hz as [<-|Hz]; [apply in_map; assumption|]. apply IH. assumption.
Qed.

(** C5. On an acyclic position list, [buildSubordinatePuestoIds P]
    contains exactly the positions whose chain of superiors reaches [P],
    and never [P] itself. *)
Theorem buildSubordinatePuestoIds_spec (ps : list puesto) (P : Z) :
  acyclic ps ->
  (forall x, In x (buildSubordinatePuestoIds (Some P) ps) <-> reaches ps x P) /\
  ~ In P (buildSubordinatePuestoIds (Some P) ps).
Proof.
  intros Hac.
  assert (Hiff : forall x, In x (buildSubordinatePuestoIds (Some P) ps) <-> reaches ps x P).
  { intro x. split; [apply subordinates_fuel_sound|].
    intro H. destruct (reaches_chain ps x P H) as [l Hl].
    apply (chain_complete ps l x P Hl).
    pose proof (NoDup_incl_length (chain_nodup ps l x P Hac Hl) (chain_incl ps l x P Hl)) as Hlen.
    rewrite length_map in Hlen. lia. }
  split; [exact Hiff|].
  intro H. apply Hiff in H. exact (Hac P H).
Qed.

(** A list in which every position reports to a smaller id is acyclic. *)
Lemma reaches_decreasing (ps : list puesto) (x y : Z) :
  (forall p r, In p ps -> responde_a_id p = Some r -> r < p_id p) ->
  reaches ps x y -> y < x.
Proof.
  intros Hd. induction 1 as [p P Hin Hr|p y P Hin Hr _ IH].
  - exact (Hd p P Hin Hr).
  - specialize (Hd p y Hin Hr). lia.
Qed.

Lemma acyclic_decreasing (ps : list puesto) :
  (forall p r, In p ps -> responde_a_id p = Some r -> r < p_id p) -> acyclic ps.
Proof.
  intros Hd x H. pose proof (reaches_decreasing ps x x Hd H). lia.
Qed.

Lemma org_two_acyclic : acyclic (puestos org_two).
Proof.
  apply acyclic_decreasing. intros p r Hp Hr. simpl in Hp.
  destruct Hp as [<-|[<-|[]]]; simpl in Hr; [discriminate|]. injection Hr as <-. simpl. lia.
Qed.

(** The chain A(1) <- B(2) <- C(3). *)
Definition chain_ABC : list puesto :=
  [mkPuesto 1 None; mkPuesto 2 (Some 1); mkPuesto 3 (Some 2)].

Example chain_ABC_on_A : buildSubordinatePuestoIds (Some 1) chain_ABC = [2; 3].
Proof. reflexivity. Qed.

Example chain_ABC_on_B : buildSubordinatePuestoIds (Some 2) chain_ABC = [3].
Proof. reflexivity. Qed.

Example chain_ABC_on_C : buildSubordinatePuestoIds (Some 3) chain_ABC = [].
Proof. reflexivity. Qed.

Lemma chain_ABC_acyclic : acyclic chain_ABC.
Proof.
  apply acyclic_decreasing. intros p r Hp Hr.
  destruct Hp as [<-|[<-|[<-|[]]]]; simpl in Hr; try discriminate;
    injection Hr as <-; simpl; lia.
Qed.

Lemma buildSubordinatePuestoIds_spec_witness :
  acyclic chain_ABC /\ reaches chain_ABC 3 1 /\ ~ In 1 (buildSubordinatePuestoIds (Some 1) chain_ABC) /\
  buildSubordinatePuestoIds (Some 1) chain_ABC = [2; 3] /\
  buildSubordinatePuestoIds (Some 2) chain_ABC = [3] /\
  buildSubordinatePuestoIds (Some 3) chain_ABC = [].
Proof.
  split; [exact chain_ABC_acyclic|].
  refine ((fun H => conj (proj1 H) (conj (proj2 H) (conj eq_refl (conj eq_refl eq_refl)))) _).
  destruct (buildSubordinatePuestoIds_spec chain_ABC 1 chain_ABC_acyclic) as [Hiff Hnot].
  split; [apply Hiff; simpl; right; left; reflexivity | exact Hnot].
Defined.

(** ** The lock of [/save] *)


Definition kpis_one : list (Z * kpi) := [(5, kpi_number_80_90 "HIGHER_BETTER")].

Definition row_approved_by_10 : row :=
  mkRow (JStr "95") (Some "verde") None 1 (Some 10) (Some 0) None None None.

Definition table_approved : table :=
  tbl_set empty_table (20, 5, 2024, 3) row_approved_by_10.

Definition save_req_20 : save_req :=
  mkSaveReq (Some 5) (Some 2024) (Some 3) (JStr "85") None (Some 20) None.





(** ** Default period *)

(** C6. For a date in calendar month [m] (1-12) of year [y] on day [d]:
    when [d <= 10] the period is the previous month, rolling January back
    to December of [y - 1]; otherwise it is [(y, m)]. In particular
    10 March gives February, 11 March gives March and 1 January gives
    December of the previous year. *)
Theorem getDefaultPeriod_spec (y m d : Z) :
  1 <= m <= 12 ->
  getDefaultPeriod (mkDate y (m - 1) d) =
    (if d <=? 10 then (if m =? 1 then (y - 1, 12) else (y, m - 1)) else (y, m)) /\
  getDefaultPeriod (mkDate y 2 10) = (y, 2) /\
  getDefaultPeriod (mkDate y 2 11) = (y, 3) /\
  getDefaultPeriod (mkDate y 0 1) = (y - 1, 12).
Proof.
  intros Hm. unfold getDefaultPeriod; simpl.
  split; [|repeat split].
  replace (m - 1 + 1) with m by lia.
  destruct (d <=? 10); [|reflexivity].
  destruct (Z.eqb_spec m 1) as [->|Hne].
  - reflexivity.
  - replace (m - 1 <? 1) with false by (symmetry; apply Z.ltb_ge; lia). reflexivity.
Qed.

Lemma getDefaultPeriod_spec_witness :
  (1 <= 3 <= 12) /\ getDefaultPeriod (mkDate 2026 2 10) = (2026, 2).
Proof.
  split; [lia|].
  exact (proj1 (proj2 (getDefaultPeriod_spec 2026 3 10 ltac:(lia)))).
Defined.

(** ** Frame of [/save] *)

Lemma scoreKpi_cases (num_to_string : Q -> string) (k : option kpi) (v : JVal) :
  let r := scoreKpi num_to_string k v in
  r = verde \/ r = amarillo \/ r = rojo \/ exists w, r = no_grade w.
Proof.
  unfold scoreKpi. destruct k as [k|]; [|eauto 6].
  repeat match goal with
         | |- context [if ?b then _ else _] => destruct b
         | |- context [match ?x with Some _ => _ | None => _ end] => destruct x
         end; eauto 6.
Qed.

(** The score answered by [/save] is the score of the color it stores. *)
Lemma scoreKpi_score_of_color (num_to_string : Q -> string) (k : option kpi) (v : JVal) :
  score (scoreKpi num_to_string k v) =
  match color (scoreKpi num_to_string k v) with
  | Some c => manual_score c
  | None => None
  end.
Proof.
  destruct (scoreKpi_cases num_to_string k v) as [E|[E|[E|[w E]]]]; rewrite E; reflexivity.
Qed.

Lemma tbl_set_same (t : table) (k : rkey) (r : row) : tbl_set t k r k = Some r.
Proof.
  unfold tbl_set. destruct k as [[[e kk] y] m]. simpl. rewrite !Z.eqb_refl. reflexivity.
Qed.

Lemma tbl_set_other (t : table) (k k' : rkey) (r : row) :
  rkey_eqb k k' = false -> tbl_set t k r k' = t k'.
Proof. unfold tbl_set. intros ->. reflexivity. Qed.

Lemma rkey_eqb_eq (k k' : rkey) : rkey_eqb k k' = true -> k = k'.
Proof.
  destruct k as [[[e1 k1] y1] m1], k' as [[[e2 k2] y2] m2]. simpl.
  rewrite !andb_true_iff, !Z.eqb_eq. intros [[[-> ->] ->] ->]. reflexivity.
Qed.

Lemma upsert_shape (dflt : row) (t : table) (k : rkey) (f : row -> row) :
  exists r0, (t k = Some r0 \/ (t k = None /\ r0 = dflt)) /\ upsert dflt t k f = tbl_set t k (f r0).
Proof.
  unfold upsert. destruct (t k) as [r|]; eauto.
Qed.

(** The three outcomes of [/save]: refused with the table unchanged, a
    value write, or a comment-only write. *)
Lemma save_shape (num_to_string : Q -> string) (dflt : row) (kpis : list (Z * kpi))
  (o : org) (t : table) (u : user) (req : save_req) :
  let res := save num_to_string dflt kpis o t u req in
  (exists e, res = (Err e, t)) \/
  (exists key c s, fst res = Ok (c, s) /\
     (hasValue (s_valor req) = true ->
        s = match c with Some col => manual_score col | None => None end /\
        snd res = upsert dflt t key (set_value (s_valor req) c (or_null (s_comentario req)))) /\
     (hasValue (s_valor req) = false ->
        snd res = upsert dflt t key (set_comment (or_null (s_comentario req))))).
Proof.
  unfold save.
  destruct (s_kpi_id req) as [kid|]; [|left; eauto].
  destruct (s_anio req) as [anio|]; [|left; eauto].
  destruct (s_mes req) as [mes|]; [|left; eauto].
  destruct (find _ kpis) as [[kid' k]|]; [|left; eauto].
  destruct (hasValue (s_valor req)) eqn:Hv.
  - destruct (or_null (s_color req)) as [col|] eqn:Ec.
    + destruct (_ && _)%bool; [left; eauto|].
      destruct (_ && negb _)%bool; [left; eauto|].
      right. do 3 eexists. split; [reflexivity|]. split; [|discriminate].
      intros _. split; reflexivity.
    + destruct (_ && _)%bool; [left; eauto|].
      destruct (_ && negb _)%bool; [left; eauto|].
      right. do 3 eexists. split; [reflexivity|]. split; [|discriminate].
      intros _. split; [apply scoreKpi_score_of_color|reflexivity].
  - destruct (_ && _)%bool; [left; eauto|].
    destruct (_ && negb _)%bool; [left; eauto|].
    right. do 3 eexists. split; [reflexivity|]. split; [discriminate|].
    intros _. reflexivity.
Qed.

(** C7. A [/save] call whose value is absent, [null] or blank leaves the
    value and color (and the approval and review columns) of every stored
    row unchanged; only the comment of the target row may be written (a
    missing row is created from the column defaults with that comment).
    A call with a value that succeeds writes value, color and comment of
    the target row, answers the score of the stored color, and keeps the
    approval and review columns; no other row changes. *)
Theorem save_frame (num_to_string : Q -> string) (dflt : row) (kpis : list (Z * kpi))
  (o : org) (t : table) (u : user) (req : save_req) :
  let res := save num_to_string dflt kpis o t u req in
  (hasValue (s_valor req) = false ->
     (forall key r, t key = Some r ->
        exists r', snd res key = Some r' /\
          valor r' = valor r /\ r_color r' = r_color r /\
          visto_bueno r' = visto_bueno r /\ visto_por r' = visto_por r /\
          visto_fecha r' = visto_fecha r /\ revision_por r' = revision_por r /\
          revision_fecha r' = revision_fecha r /\ revision_motivo r' = revision_motivo r) /\
     (forall key, t key = None ->
        snd res key = None \/
        snd res key = Some (set_comment (or_null (s_comentario req)) dflt))) /\
  (hasValue (s_valor req) = true -> forall c s, fst res = Ok (c, s) ->
     exists key r0 r', (t key = Some r0 \/ (t key = None /\ r0 = dflt)) /\
       snd res key = Some r' /\
       valor r' = s_valor req /\ r_color r' = c /\
       comentario r' = or_null (s_comentario req) /\
       s = match c with Some col => manual_score col | None => None end /\
       visto_bueno r' = visto_bueno r0 /\ visto_por r' = visto_por r0 /\
       visto_fecha r' = visto_fecha r0 /\ revision_por r' = revision_por r0 /\
       revision_fecha r' = revision_fecha r0 /\ revision_motivo r' = revision_motivo r0 /\
       (forall key', rkey_eqb key key' = false -> snd res key' = t key')).
Proof.
  intros res. subst res.
  pose proof (save_shape num_to_string dflt kpis o t u req) as HS. cbv zeta in HS.
  destruct HS as [[e He]|[key [c [s [Hok [Hval Hcom]]]]]].
  - rewrite He. simpl. split.
    + intros _. split; [intros key r Hr; exists r; rewrite Hr; repeat split|intros key Hn; left; exact Hn].
    + intros _ c s H. discriminate.
  - split.
    + intros Hv. rewrite (Hcom Hv).
      destruct (upsert_shape dflt t key (set_comment (or_null (s_comentario req))))
        as [r0 [Hr0 ->]].
      split.
      * intros key' r Hr.
        destruct (rkey_eqb key key') eqn:Ek.
        -- apply rkey_eqb_eq in Ek. subst key'. rewrite tbl_set_same.
           eexists; split; [reflexivity|].
           destruct Hr0 as [Hr0|[Hr0 _]]; rewrite Hr in Hr0; [|discriminate].
           injection Hr0 as <-. repeat split.
        -- rewrite tbl_set_other by exact Ek. eexists; split; [exact Hr|repeat split].
      * intros key' Hn.
        destruct (rkey_eqb key key') eqn:Ek.
        -- apply rkey_eqb_eq in Ek. subst key'. rewrite tbl_set_same. right.
           destruct Hr0 as [Hr0|[_ ->]]; [congruence|reflexivity].
        -- rewrite tbl_set_other by exact Ek. left. exact Hn.
    + intros Hv c' s' Hok'. rewrite Hok in Hok'. injection Hok' as <- <-.
      destruct (Hval Hv) as [Hs Hsnd]. rewrite Hsnd.
      destruct (upsert_shape dflt t key (set_value (s_valor req) c (or_null (s_comentario req))))
        as [r0 [Hr0 ->]].
      exists key, r0. eexists. split; [exact Hr0|]. split; [apply tbl_set_same|].
      repeat split; try reflexivity; [exact Hs|].
      intros key' Hk. apply tbl_set_other. exact Hk.
Qed.

Lemma save_frame_witness :
  hasValue (JStr "  ") = false /\
  table_approved (20, 5, 2024, 3) = Some row_approved_by_10 /\
  exists r', snd (save (fun _ => "") row_default kpis_one org_two table_approved boss10
                    (mkSaveReq (Some 5) (Some 2024) (Some 3) (JStr "  ") None (Some 20)
                               (Some "revisar"))) (20, 5, 2024, 3) = Some r' /\
    valor r' = valor row_approved_by_10 /\ r_color r' = r_color row_approved_by_10 /\
    visto_bueno r' = visto_bueno row_approved_by_10 /\
    visto_por r' = visto_por row_approved_by_10 /\
    visto_fecha r' = visto_fecha row_approved_by_10 /\
    revision_por r' = revision_por row_approved_by_10 /\
    revision_fecha r' = revision_fecha row_approved_by_10 /\
    revision_motivo r' = revision_motivo row_approved_by_10.
Proof.
  split; [reflexivity|]. split; [reflexivity|].
  exact (proj1 (proj1 (save_frame (fun _ => "") row_default kpis_one org_two table_approved boss10
                         (mkSaveReq (Some 5) (Some 2024) (Some 3) (JStr "  ") None (Some 20)
                                    (Some "revisar"))) eq_refl)
           (20, 5, 2024, 3) row_approved_by_10 eq_refl).
Defined.

(** ** Weight sums *)

Section WeightSums.
Local Open Scope Q_scope.






End WeightSums.





(** ** Weighted aggregation *)

(** The contribution of one entry: [score * weight / 100] when the score
    is present and the weight parses, nothing otherwise. *)
Definition contribution (e : option Z * JVal) : Q :=
  match fst e, toNumberOrNull (snd e) with
  | Some s, Some w => (inject_Z s * w / 100)%Q
  | _, _ => 0%Q
  end.

Definition counted (e : option Z * JVal) : bool :=
  match fst e, toNumberOrNull (snd e) with
  | Some _, Some _ => true
  | _, _ => false
  end.

Lemma aggregate_cons (s : option Z) (w : JVal) (rest : list (option Z * JVal)) :
  aggregate ((s, w) :: rest)
  = match weighted_cell s w with
    | Some x => ((x + fst (aggregate rest))%Q, snd (aggregate rest))
    | None => (fst (aggregate rest), S (snd (aggregate rest)))
    end.
Proof. reflexivity. Qed.

(** C9. The total of [aggregate] is the sum of [score * weight / 100]
    over the entries with a score and a parsing weight, the others adding
    nothing and being counted as missing; on
    [[{score:100, weight:60}, {score:40, weight:40}]] the total is 76 and
    nothing is missing. *)
Theorem aggregate_spec (results : list (option Z * JVal)) :
  (fst (aggregate results) == fold_right Qplus 0 (map contribution results))%Q /\
  snd (aggregate results) = length (filter (fun e => negb (counted e)) results) /\
  (fst (aggregate [(Some 100%Z, JStr "60"); (Some 40%Z, JStr "40")]) == 76)%Q /\
  snd (aggregate [(Some 100%Z, JStr "60"); (Some 40%Z, JStr "40")]) = O.
Proof.
  split; [|split; [|split; vm_compute; reflexivity]].
  - induction results as [|[s w] rest IH]; [reflexivity|].
    rewrite aggregate_cons. cbn [map fold_right].
    unfold weighted_cell. unfold contribution at 1. cbn [fst snd].
    destruct (toNumberOrNull w) as [wv|]; destruct s as [sv|]; cbn [fst snd];
      rewrite IH; field.
  - induction results as [|[s w] rest IH]; [reflexivity|].
    rewrite aggregate_cons. cbn [filter].
    unfold counted, weighted_cell. cbn [fst snd].
    destruct (toNumberOrNull w) as [wv|]; destruct s as [sv|]; cbn [fst snd negb length];
      rewrite IH; reflexivity.
Qed.

(** ** The lifecycle invariant *)

Lemma tbl_set_inv (t : table) (k : rkey) (r : row) :
  table_inv t -> row_inv r -> table_inv (tbl_set t k r).
Proof.
  intros Ht Hr k' r'. unfold tbl_set.
  destruct (rkey_eqb k k'); [intro E; injection E as <-; exact Hr|apply Ht].
Qed.

Lemma upsert_inv (dflt : row) (t : table) (k : rkey) (f : row -> row) :
  row_inv dflt -> table_inv t -> (forall r, row_inv r -> row_inv (f r)) ->
  table_inv (upsert dflt t k f).
Proof.
  intros Hd Ht Hf. unfold upsert.
  destruct (t k) as [r|] eqn:E; apply tbl_set_inv; auto.
  apply Hf, (Ht k), E.
Qed.

Lemma set_value_inv (v : JVal) (c cm : option string) (r : row) :
  row_inv r -> row_inv (set_value v c cm r).
Proof. unfold row_inv, set_value. simpl. auto. Qed.

Lemma set_comment_inv (cm : option string) (r : row) :
  row_inv r -> row_inv (set_comment cm r).
Proof. unfold row_inv, set_comment. simpl. auto. Qed.

Lemma set_approved_inv (actor now : Z) (r : row) : row_inv (set_approved actor now r).
Proof. unfold row_inv, set_approved. simpl. auto. Qed.

Lemma set_review_inv (actor now : Z) (m : string) (r : row) : row_inv (set_review actor now m r).
Proof. unfold row_inv, set_review. simpl. discriminate. Qed.

Lemma apply_op_inv (num_to_string : Q -> string) (dflt : row) (t : table) (x : op) :
  row_inv dflt -> table_inv t -> table_inv (apply_op num_to_string dflt t x).
Proof.
  intros Hd Ht. destruct x as [kpis o u req|o u now req|o u now req m]; simpl.
  - destruct (save_shape num_to_string dflt kpis o t u req)
      as [[e E]|[key [c [s [_ [Hv Hc]]]]]].
    + rewrite E. exact Ht.
    + destruct (hasValue (s_valor req)) eqn:Ev.
      * rewrite (proj2 (Hv eq_refl)). apply upsert_inv; auto using set_value_inv.
      * rewrite (Hc eq_refl). apply upsert_inv; auto using set_comment_inv.
  - unfold visto. destruct (m_kpi_id req), (m_anio req), (m_mes req); try exact Ht.
    destruct (negb _); [exact Ht|]. apply upsert_inv; auto using set_approved_inv.
  - unfold sendToReview. destruct (m_kpi_id req), (m_anio req), (m_mes req); try exact Ht.
    destruct (negb _); [exact Ht|]. destruct (_ && _)%bool; [exact Ht|].
    apply upsert_inv; auto using set_review_inv.
Qed.

(** C10. Starting from an empty table, with column defaults that are not
    an approved row, every table reached by any sequence of [/save],
    [/visto] and [/review] requests has no row that is both approved
    ([visto_bueno = 1]) and carries a review ([revision_por],
    [revision_fecha] or [revision_motivo] not null). *)
Theorem lifecycle_no_approved_review (num_to_string : Q -> string) (dflt : row) (ops : list op) :
  row_inv dflt -> table_inv (run num_to_string dflt ops empty_table).
Proof.
  intro Hd. unfold run.
  assert (H0 : table_inv empty_table) by (intros k r E; discriminate E).
  revert H0. generalize empty_table. induction ops as [|x ops IH]; intros t Ht; simpl.
  - exact Ht.
  - apply IH, apply_op_inv; assumption.
Qed.

Lemma lifecycle_no_approved_review_witness :
  row_inv row_default /\
  table_inv (run (fun _ => "") row_default
               [OpApprove org_two boss10 1 (mkMarkReq (Some 5) (Some 2024) (Some 3) (Some 20));
                OpReview org_two boss10 2 (mkMarkReq (Some 5) (Some 2024) (Some 3) (Some 20))
                         (Some "revisar");
                OpApprove org_two boss10 3 (mkMarkReq (Some 5) (Some 2024) (Some 3) (Some 20))]
               empty_table).
Proof.
  assert (Hd : row_inv row_default) by (intro H; vm_compute in H; discriminate H).
  split; [exact Hd|].
  apply lifecycle_no_approved_review. exact Hd.
Defined.

(* ================================================================== *)
(** * Further properties of the code *)

(** ** Grading *)

(** A KPI with another [direction] or [score_type] field. *)
Definition with_direction (k : kpi) (d : option string) : kpi :=
  mkKpi (score_type k) d (threshold_yellow k) (threshold_green k)
        (criterion_red k) (criterion_yellow k) (criterion_green k).

Definition with_score_type (k : kpi) (st : option string) : kpi :=
  mkKpi st (direction k) (threshold_yellow k) (threshold_green k)
        (criterion_red k) (criterion_yellow k) (criterion_green k).

Ltac Qle_bool_facts :=
  repeat match goal with
         | H : Qle_bool _ _ = true |- _ => apply Qle_bool_iff in H
         | H : Qle_bool _ _ = false |- _ => apply Qle_bool_false in H
         end.

(** Threshold grading is monotone in the value: under HIGHER_BETTER a
    larger value never gets a lower score, under any other direction a
    larger value never gets a higher one. *)
Theorem scoreKpi_monotone (num_to_string : Q -> string) (k : kpi) (v1 v2 : JVal)
  (n1 n2 ty tg : Q) :
  to_upper (or_default (score_type k) "") <> "CRITERION" ->
  toNumberOrNull (threshold_yellow k) = Some ty ->
  toNumberOrNull (threshold_green k) = Some tg ->
  toNumberOrNull v1 = Some n1 -> toNumberOrNull v2 = Some n2 -> (n1 <= n2)%Q ->
  exists s1 s2, score (scoreKpi num_to_string (Some k) v1) = Some s1 /\
                score (scoreKpi num_to_string (Some k) v2) = Some s2 /\
                (if String.eqb (to_upper (or_default (direction k) "HIGHER_BETTER")) "HIGHER_BETTER"
                 then s1 <= s2 else s2 <= s1).
Proof.
  intros Hst Hy Hg H1 H2 Hle. unfold scoreKpi.
  rewrite (proj2 (String.eqb_neq _ _) Hst), H1, H2, Hy, Hg.
  destruct (String.eqb (to_upper (or_default (direction k) "HIGHER_BETTER")) "HIGHER_BETTER").
  - destruct (Qle_bool tg n1) eqn:A; destruct (Qle_bool ty n1) eqn:B;
      destruct (Qle_bool tg n2) eqn:C; destruct (Qle_bool ty n2) eqn:D;
      Qle_bool_facts; simpl; (do 2 eexists; split; [reflexivity|split; [reflexivity|]]);
      first [lia | exfalso; lra].
  - destruct (Qle_bool n1 tg) eqn:A; destruct (Qle_bool n1 ty) eqn:B;
      destruct (Qle_bool n2 tg) eqn:C; destruct (Qle_bool n2 ty) eqn:D;
      Qle_bool_facts; simpl; (do 2 eexists; split; [reflexivity|split; [reflexivity|]]);
      first [lia | exfalso; lra].
Qed.

Lemma scoreKpi_monotone_witness :
  exists s1 s2,
    score (scoreKpi (fun _ => "") (Some (kpi_number_80_90 "HIGHER_BETTER")) (JStr "85")) = Some s1 /\
    score (scoreKpi (fun _ => "") (Some (kpi_number_80_90 "HIGHER_BETTER")) (JStr "95")) = Some s2 /\
    (if String.eqb (to_upper (or_default (direction (kpi_number_80_90 "HIGHER_BETTER")) "HIGHER_BETTER"))
                   "HIGHER_BETTER" then s1 <= s2 else s2 <= s1).
Proof.
  apply (scoreKpi_monotone (fun _ => "") (kpi_number_80_90 "HIGHER_BETTER") (JStr "85") (JStr "95")
           85 95 80 90); try (vm_compute; reflexivity).
  - vm_compute. discriminate.
  - vm_compute. discriminate.
Defined.

(** The grade depends on the [direction] field only through whether its
    upper-cased value (default HIGHER_BETTER) is HIGHER_BETTER: the test
    ignores case, an empty or missing direction counts as HIGHER_BETTER,
    and any other text, misspellings included, grades as LOWER_BETTER. *)
Theorem scoreKpi_direction_fallback (num_to_string : Q -> string) (k : kpi) (v : JVal)
  (d1 d2 : option string) :
  String.eqb (to_upper (or_default d1 "HIGHER_BETTER")) "HIGHER_BETTER"
  = String.eqb (to_upper (or_default d2 "HIGHER_BETTER")) "HIGHER_BETTER" ->
  scoreKpi num_to_string (Some (with_direction k d1)) v
  = scoreKpi num_to_string (Some (with_direction k d2)) v.
Proof.
  intro H. unfold scoreKpi, with_direction. cbn [score_type direction threshold_yellow
    threshold_green criterion_red criterion_yellow criterion_green].
  rewrite H. reflexivity.
Qed.

Lemma scoreKpi_direction_fallback_witness :
  String.eqb (to_upper (or_default (Some "HIGHER-BETTER") "HIGHER_BETTER")) "HIGHER_BETTER"
  = String.eqb (to_upper (or_default (Some "lower_better") "HIGHER_BETTER")) "HIGHER_BETTER" /\
  scoreKpi (fun _ => "") (Some (with_direction (kpi_number_80_90 "") (Some "HIGHER-BETTER"))) (JStr "95")
  = scoreKpi (fun _ => "") (Some (with_direction (kpi_number_80_90 "") (Some "lower_better"))) (JStr "95").
Proof.
  assert (H : String.eqb (to_upper (or_default (Some "HIGHER-BETTER") "HIGHER_BETTER")) "HIGHER_BETTER"
              = String.eqb (to_upper (or_default (Some "lower_better") "HIGHER_BETTER")) "HIGHER_BETTER")
    by (vm_compute; reflexivity).
  split; [exact H|]. exact (scoreKpi_direction_fallback (fun _ => "") (kpi_number_80_90 "") (JStr "95") _ _ H).
Defined.

(** The grade depends on the [score_type] field only through whether its
    upper-cased value is CRITERION: the test ignores case, and every other
    value (missing, empty, PERCENT, NUMBER or anything else) grades with
    the numeric thresholds. *)
Theorem scoreKpi_type_fallback (num_to_string : Q -> string) (k : kpi) (v : JVal)
  (t1 t2 : option string) :
  String.eqb (to_upper (or_default t1 "")) "CRITERION"
  = String.eqb (to_upper (or_default t2 "")) "CRITERION" ->
  scoreKpi num_to_string (Some (with_score_type k t1)) v
  = scoreKpi num_to_string (Some (with_score_type k t2)) v.
Proof.
  intro H. unfold scoreKpi, with_score_type. cbn [score_type direction threshold_yellow
    threshold_green criterion_red criterion_yellow criterion_green].
  rewrite H. reflexivity.
Qed.

Lemma scoreKpi_type_fallback_witness :
  String.eqb (to_upper (or_default None "")) "CRITERION"
  = String.eqb (to_upper (or_default (Some "PERCENT") "")) "CRITERION" /\
  scoreKpi (fun _ => "") (Some (with_score_type (kpi_number_80_90 "") None)) (JStr "85")
  = scoreKpi (fun _ => "") (Some (with_score_type (kpi_number_80_90 "") (Some "PERCENT"))) (JStr "85").
Proof.
  assert (H : String.eqb (to_upper (or_default None "")) "CRITERION"
              = String.eqb (to_upper (or_default (Some "PERCENT") "")) "CRITERION")
    by (vm_compute; reflexivity).
  split; [exact H|]. exact (scoreKpi_type_fallback (fun _ => "") (kpi_number_80_90 "") (JStr "85") _ _ H).
Defined.

(** For a KPI graded by thresholds, the value is checked before the
    thresholds: a value that does not parse gives no grade with reason
    "Valor no numérico" whatever the thresholds; a value that parses with
    a threshold that does not gives no grade with "Sin umbrales
    definidos". *)
Theorem scoreKpi_numeric_errors (num_to_string : Q -> string) (k : kpi) (v : JVal) :
  to_upper (or_default (score_type k) "") <> "CRITERION" ->
  (toNumberOrNull v = None -> scoreKpi num_to_string (Some k) v = no_grade R_NOT_NUMERIC) /\
  (forall n, toNumberOrNull v = Some n ->
     toNumberOrNull (threshold_yellow k) = None \/ toNumberOrNull (threshold_green k) = None ->
     scoreKpi num_to_string (Some k) v = no_grade R_NO_THRESHOLDS).
Proof.
  intro Hst. unfold scoreKpi. rewrite (proj2 (String.eqb_neq _ _) Hst). split.
  - intros ->. reflexivity.
  - intros n -> [->| ->]; [reflexivity|]. destruct (toNumberOrNull (threshold_yellow k)); reflexivity.
Qed.

Lemma scoreKpi_numeric_errors_witness :
  scoreKpi (fun _ => "") (Some (kpi_number_80_90 "HIGHER_BETTER")) (JStr "n/a") = no_grade R_NOT_NUMERIC.
Proof.
  apply (proj1 (scoreKpi_numeric_errors (fun _ => "") (kpi_number_80_90 "HIGHER_BETTER") (JStr "n/a")
                  ltac:(vm_compute; discriminate))).
  vm_compute. reflexivity.
Defined.

(** For a CRITERION KPI, a value that is [null], [undefined] or blank is
    never graded: the colour and the score stay [null]. *)
Theorem scoreKpi_criterion_blank (num_to_string : Q -> string) (k : kpi) (v : JVal) :
  to_upper (or_default (score_type k) "") = "CRITERION" ->
  criterion_input num_to_string v = "" ->
  color (scoreKpi num_to_string (Some k) v) = None /\
  score (scoreKpi num_to_string (Some k) v) = None.
Proof.
  intros Hst Hv. unfold criterion_input in Hv. unfold scoreKpi. rewrite Hst, String.eqb_refl.
  assert (Hv' : match v with JNull | JUndefined => "" | _ => trim (js_String num_to_string v) end = "")
    by (destruct v; exact Hv).
  rewrite Hv'.
  set (r := trim (or_default (criterion_red k) "")).
  set (y := trim (or_default (criterion_yellow k) "")).
  set (g := trim (or_default (criterion_green k) "")).
  assert (E : forall x, (nonempty x && String.eqb "" x)%bool = false).
  { intro x. destruct (nonempty x) eqn:N; [|reflexivity]. apply nonempty_true in N.
    cbn [andb]. apply String.eqb_neq. congruence. }
  rewrite !E.
  destruct (negb (nonempty r) && negb (nonempty y) && negb (nonempty g))%bool; split; reflexivity.
Qed.

Lemma scoreKpi_criterion_blank_witness :
  color (scoreKpi (fun _ => "") (Some kpi_criterion_si_no) (JStr "   ")) = None /\
  score (scoreKpi (fun _ => "") (Some kpi_criterion_si_no) (JStr "   ")) = None.
Proof.
  apply scoreKpi_criterion_blank; vm_compute; reflexivity.
Defined.

(** The colour and the score [scoreKpi] returns agree with the scoring of
    the Excel export: [scoreFromColor(normalizeColor(color))] of the
    colour is the score, for graded and ungraded results alike. *)
Theorem scoreKpi_workbook_agree (num_to_string : Q -> string) (k : option kpi) (v : JVal) :
  workbook_puntaje (color (scoreKpi num_to_string k v)) = score (scoreKpi num_to_string k v).
Proof.
  destruct (scoreKpi_cases num_to_string k v) as [E|[E|[E|[w E]]]]; rewrite E; reflexivity.
Qed.

(** The export scores a stored colour after trimming and lower-casing it
    and reads the English names too: 100 for verde/green, 70 for
    amarillo/yellow, 40 for rojo/red, nothing otherwise. The score [/save]
    answers for a manual colour is exact-match only, so a colour stored
    as "Verde" has no score at capture but scores 100 in the export. *)
Theorem workbook_puntaje_spec (c : option string) :
  let n := to_lower (trim (or_default c "")) in
  (workbook_puntaje c = Some 100 <-> n = "verde" \/ n = "green") /\
  (workbook_puntaje c = Some 70 <-> n = "amarillo" \/ n = "yellow") /\
  (workbook_puntaje c = Some 40 <-> n = "rojo" \/ n = "red") /\
  (workbook_puntaje c = None <->
     ~ In n ["verde"; "green"; "amarillo"; "yellow"; "rojo"; "red"]) /\
  manual_score "Verde" = None /\ workbook_puntaje (Some "Verde") = Some 100.
Proof.
  intro n. unfold workbook_puntaje, normalizeColor, scoreFromColor. fold n. clearbody n.
  refine (conj _ (conj _ (conj _ (conj _ (conj eq_refl eq_refl))))).
  all: destruct (String.eqb_spec n "red") as [->|R]; [simpl; intuition (try discriminate; try congruence)|];
    destruct (String.eqb_spec n "yellow") as [->|Y]; [simpl; intuition (try discriminate; try congruence)|];
    destruct (String.eqb_spec n "green") as [->|G]; [simpl; intuition (try discriminate; try congruence)|];
    destruct (String.eqb_spec n "rojo") as [->|A]; [simpl; intuition (try discriminate; try congruence)|];
    destruct (String.eqb_spec n "amarillo") as [->|B]; [simpl; intuition (try discriminate; try congruence)|];
    destruct (String.eqb_spec n "verde") as [->|C]; [simpl; intuition (try discriminate; try congruence)|].
  all: simpl; intuition (try discriminate; try congruence).
Qed.

(** ** Access to the organisation tree *)

Lemma subordinates_none_root (ps : list puesto) (f : nat) (p : puesto) (x : Z) :
  In p ps -> responde_a_id p = None ->
  (x = p_id p \/ In x (subordinates_fuel f (Some (p_id p)) ps)) ->
  In x (subordinates_fuel (S f) None ps).
Proof.
  intros Hp Hr Hx. simpl. apply in_flat_map. exists p. split; [exact Hp|].
  rewrite Hr. simpl. destruct Hx as [->|Hx]; [left; reflexivity|right; exact Hx].
Qed.

(** A user whose session has no position ([puesto_id] null) gets, from
    [buildSubordinatePuestoIds(null)], every root position and everything
    below it: on an acyclic hierarchy, such a user without an elevated
    role passes the subordinate test of [/save] and [canAccessEmployeeTree]
    for every employee whose (non-zero) position is a root position or
    lies under one. *)
Theorem no_puesto_user_reaches_roots (o : org) (u : user) (t tp : Z) (p : puesto) :
  acyclic (puestos o) -> elevated u = false -> u_puesto_id u = None ->
  target_puesto o t = Some tp -> tp <> 0 ->
  In p (puestos o) -> responde_a_id p = None ->
  (tp = p_id p \/ reaches (puestos o) tp (p_id p)) ->
  in_subordinate_tree o u t = true /\ canAccessEmployeeTree o u t = true.
Proof.
  intros Hac He Hu Ht Htp Hp Hr Hreach.
  assert (Hin : in_subordinate_tree o u t = true).
  { unfold in_subordinate_tree, buildSubordinatePuestoIds. rewrite Hu, Ht.
    rewrite (proj2 (Z.eqb_neq _ _) Htp). simpl negb. cbn [andb].
    apply existsb_exists. exists tp. split; [|apply Z.eqb_refl].
    apply (subordinates_none_root _ _ p); auto.
    destruct Hreach as [->|Hreach]; [left; reflexivity|right].
    destruct (reaches_chain _ _ _ Hreach) as [l Hl].
    apply (chain_complete _ l _ _ Hl).
    pose proof (NoDup_incl_length (chain_nodup _ l _ _ Hac Hl) (chain_incl _ l _ _ Hl)) as Hlen.
    rewrite length_map in Hlen. exact Hlen. }
  split; [exact Hin|]. unfold canAccessEmployeeTree. rewrite Hin. apply orb_true_r.
Qed.

(** An organisation on the chain 1 <- 2 <- 3 and a user without position. *)
Definition org_chain : org :=
  mkOrg chain_ABC [mkEmpleado 10 (Some 1); mkEmpleado 30 (Some 3)].

Definition no_puesto_user : user := mkUser 99 "user" None.

Lemma no_puesto_user_reaches_roots_witness :
  in_subordinate_tree org_chain no_puesto_user 30 = true /\
  canAccessEmployeeTree org_chain no_puesto_user 30 = true.
Proof.
  apply (no_puesto_user_reaches_roots org_chain no_puesto_user 30 3 (mkPuesto 1 None)).
  - exact chain_ABC_acyclic.
  - vm_compute. reflexivity.
  - reflexivity.
  - vm_compute. reflexivity.
  - lia.
  - simpl. left. reflexivity.
  - reflexivity.
  - right. simpl. apply (reach_up chain_ABC (mkPuesto 3 (Some 2)) 2 1).
    + simpl. right. right. left. reflexivity.
    + reflexivity.
    + apply (reach_direct chain_ABC (mkPuesto 2 (Some 1)) 1).
      * simpl. right. left. reflexivity.
      * reflexivity.
Defined.

(** Whoever [isDirectBossByPuesto] accepts (the approvers of [/visto] for
    other employees) also passes [canAccessEmployeeTree], so may send the
    result to review: on an acyclic hierarchy with well-formed ids and
    non-zero position ids, the target's position reports to the actor's,
    so it is one of the actor's subordinate positions. *)
Theorem direct_boss_can_access (o : org) (u : user) (t : Z) :
  acyclic (puestos o) -> ids_wf o -> (forall p, In p (puestos o) -> p_id p <> 0) ->
  isDirectBossByPuesto o u t = true -> canAccessEmployeeTree o u t = true.
Proof.
  intros _ Hwf Hnz H. unfold isDirectBossByPuesto in H.
  destruct (Z.eqb t 0); [discriminate|].
  unfold canAccessEmployeeTree. destruct (elevated u) eqn:He; [reflexivity|].
  destruct (responde_a_of o t) as [[r|]|] eqn:Hr; try discriminate.
  apply Z.eqb_eq in H.
  destruct (responde_a_of_wf o t r Hwf Hr) as [p [Hp [Hpr [Hpos [_ [e [Fe Ep]]]]]]].
  destruct (u_puesto_id u) as [P|] eqn:Hu; simpl in H; [subst r|lia].
  assert (Hin : in_subordinate_tree o u t = true).
  { unfold in_subordinate_tree, buildSubordinatePuestoIds, target_puesto. rewrite Hu, Fe, Ep.
    rewrite (proj2 (Z.eqb_neq _ _) (Hnz p Hp)). cbn [negb andb].
    apply existsb_exists. exists (p_id p). split; [|apply Z.eqb_refl].
    simpl. apply in_flat_map. exists p. split; [exact Hp|].
    rewrite (proj2 (opt_eqb_some _ _) Hpr). left. reflexivity. }
  rewrite Hin. apply orb_true_r.
Qed.

Lemma direct_boss_can_access_witness :
  isDirectBossByPuesto org_two boss10 20 = true /\ canAccessEmployeeTree org_two boss10 20 = true.
Proof.
  assert (H : isDirectBossByPuesto org_two boss10 20 = true) by (vm_compute; reflexivity).
  split; [exact H|]. apply (direct_boss_can_access org_two boss10 20 org_two_acyclic org_two_wf); [|exact H].
  intros p Hp. simpl in Hp. destruct Hp as [<-|[<-|[]]]; simpl; lia.
Defined.

(** ** The result routes: what they write *)

Lemma rkey_neq (k k' : rkey) : k <> k' -> rkey_eqb k k' = false.
Proof.
  intro H. destruct (rkey_eqb k k') eqn:E; [|reflexivity]. exfalso. apply H. apply rkey_eqb_eq. exact E.
Qed.

Lemma upsert_other (dflt : row) (t : table) (k k' : rkey) (f : row -> row) :
  k <> k' -> upsert dflt t k f k' = t k'.
Proof.
  intro H. unfold upsert. destruct (t k); apply tbl_set_other, rkey_neq; exact H.
Qed.

Lemma upsert_idem (dflt : row) (t : table) (k k' : rkey) (f : row -> row) :
  (forall r, f (f r) = f r) ->
  upsert dflt (upsert dflt t k f) k f k' = upsert dflt t k f k'.
Proof.
  intro Hf. destruct (upsert_shape dflt t k f) as [r0 [_ E]]. rewrite E.
  unfold upsert at 1. rewrite tbl_set_same, Hf. unfold tbl_set.
  destruct (rkey_eqb k k'); reflexivity.
Qed.

(** [/save] leaves the table as it is or upserts the row of
    [(target, kpi_id, anio, mes)] with an update that keeps the approval
    and review columns. *)
Lemma save_table (num_to_string : Q -> string) (dflt : row) (kpis : list (Z * kpi))
  (o : org) (t : table) (u : user) (req : save_req) :
  snd (save num_to_string dflt kpis o t u req) = t \/
  exists kid anio mes f,
    s_kpi_id req = Some kid /\ s_anio req = Some anio /\ s_mes req = Some mes /\
    (forall r, visto_bueno (f r) = visto_bueno r /\ visto_por (f r) = visto_por r /\
               revision_por (f r) = revision_por r) /\
    snd (save num_to_string dflt kpis o t u req)
    = upsert dflt t (target_of u (s_empleado_id req), kid, anio, mes) f.
Proof.
  unfold save. cbv zeta.
  destruct (s_kpi_id req) as [kid|]; [|left; reflexivity].
  destruct (s_anio req) as [anio|]; [|left; reflexivity].
  destruct (s_mes req) as [mes|]; [|left; reflexivity].
  destruct (find _ kpis) as [[kk k]|]; [|left; reflexivity].
  match goal with |- context [match ?X with pair _ _ => _ end] => destruct X as [c sc] end.
  destruct (_ && _ && _)%bool; [left; reflexivity|].
  destruct (_ && negb _)%bool; [left; reflexivity|].
  right. exists kid, anio, mes.
  destruct (hasValue (s_valor req)); eexists;
    (split; [reflexivity|split; [reflexivity|split; [reflexivity|]]]);
    (match goal with |- _ /\ ?E => assert (HE : E) by reflexivity; split; [|exact HE] end);
    intro r; repeat split; reflexivity.
Qed.

(** A failed request to [/save], [/visto] or [/review] leaves the results
    table unchanged. *)
Theorem routes_error_unchanged (num_to_string : Q -> string) (dflt : row) (kpis : list (Z * kpi))
  (o : org) (t : table) (u : user) (now : Z) (sreq : save_req) (mreq : mark_req)
  (motivo : option string) :
  (forall e, fst (save num_to_string dflt kpis o t u sreq) = Err e ->
             snd (save num_to_string dflt kpis o t u sreq) = t) /\
  (forall e, fst (visto dflt o t u now mreq) = Err e -> snd (visto dflt o t u now mreq) = t) /\
  (forall e, fst (sendToReview dflt o t u now mreq motivo) = Err e ->
             snd (sendToReview dflt o t u now mreq motivo) = t).
Proof.
  split; [|split].
  - intros e H. destruct (save_shape num_to_string dflt kpis o t u sreq) as [[e' E]|[key [c [s [Hok _]]]]].
    + rewrite E. reflexivity.
    + rewrite Hok in H. discriminate.
  - intros e. unfold visto.
    destruct (m_kpi_id mreq), (m_anio mreq), (m_mes mreq); try reflexivity.
    destruct (negb _); [reflexivity|discriminate].
  - intros e. unfold sendToReview.
    destruct (m_kpi_id mreq), (m_anio mreq), (m_mes mreq); try reflexivity.
    destruct (negb _); [reflexivity|]. destruct (_ && _)%bool; [reflexivity|discriminate].
Qed.

(** [/save], [/visto] and [/review] write at most one row: the row keyed
    by the target employee (the body's [empleado_id], else the actor) and
    the request's [kpi_id], [anio] and [mes]; every other row is kept. *)
Theorem routes_write_one_key (num_to_string : Q -> string) (dflt : row) (kpis : list (Z * kpi))
  (o : org) (t : table) (u : user) (now : Z) (sreq : save_req) (mreq : mark_req)
  (motivo : option string) (k' : rkey) :
  ((forall kid anio mes, s_kpi_id sreq = Some kid -> s_anio sreq = Some anio -> s_mes sreq = Some mes ->
      k' <> (target_of u (s_empleado_id sreq), kid, anio, mes)) ->
   snd (save num_to_string dflt kpis o t u sreq) k' = t k') /\
  ((forall kid anio mes, m_kpi_id mreq = Some kid -> m_anio mreq = Some anio -> m_mes mreq = Some mes ->
      k' <> (target_of u (m_empleado_id mreq), kid, anio, mes)) ->
   snd (visto dflt o t u now mreq) k' = t k' /\
   snd (sendToReview dflt o t u now mreq motivo) k' = t k').
Proof.
  split.
  - intro H. destruct (save_table num_to_string dflt kpis o t u sreq)
      as [E|[kid [anio [mes [f [Hk [Ha [Hm [_ E]]]]]]]]]; rewrite E; [reflexivity|].
    apply upsert_other. intro Ek. exact (H kid anio mes Hk Ha Hm (eq_sym Ek)).
  - intro H. unfold visto, sendToReview.
    destruct (m_kpi_id mreq) as [kid|], (m_anio mreq) as [anio|], (m_mes mreq) as [mes|];
      try (split; reflexivity).
    assert (Hne : (target_of u (m_empleado_id mreq), kid, anio, mes) <> k')
      by (intro Ek; exact (H kid anio mes eq_refl eq_refl eq_refl (eq_sym Ek))).
    split.
    + destruct (negb _); [reflexivity|]. apply upsert_other. exact Hne.
    + destruct (negb _); [reflexivity|]. destruct (_ && _)%bool; [reflexivity|].
      apply upsert_other. exact Hne.
Qed.

Lemma routes_write_one_key_witness :
  snd (visto row_default org_two empty_table boss10 0 (mkMarkReq (Some 5) (Some 2024) (Some 3) (Some 20)))
      (20, 5, 2024, 4) = None /\
  snd (sendToReview row_default org_two empty_table boss10 0
         (mkMarkReq (Some 5) (Some 2024) (Some 3) (Some 20)) None) (20, 5, 2024, 4) = None.
Proof.
  apply (proj2 (routes_write_one_key (fun _ => "") row_default kpis_one org_two empty_table boss10 0
                  save_req_20 (mkMarkReq (Some 5) (Some 2024) (Some 3) (Some 20)) None (20, 5, 2024, 4))).
  intros kid anio mes Hk Ha Hm. simpl in Hk, Ha, Hm.
  injection Hk as <-. injection Ha as <-. injection Hm as <-. simpl. congruence.
Defined.

(** Without an elevated role nobody can send their own result to review:
    [/review] on one's own record answers [Forbidden] and changes nothing. *)
Theorem sendToReview_self_forbidden (dflt : row) (o : org) (t : table) (u : user) (now : Z)
  (req : mark_req) (motivo : option string) (kid anio mes : Z) :
  elevated u = false ->
  m_kpi_id req = Some kid -> m_anio req = Some anio -> m_mes req = Some mes ->
  target_of u (m_empleado_id req) = u_id u ->
  sendToReview dflt o t u now req motivo = (Err Forbidden, t).
Proof.
  intros He Hk Ha Hm Ht. unfold sendToReview. rewrite Hk, Ha, Hm, Ht.
  unfold canAccessEmployeeTree. rewrite He, Z.eqb_refl. reflexivity.
Qed.

Lemma sendToReview_self_forbidden_witness :
  sendToReview row_default org_two empty_table worker20 0
    (mkMarkReq (Some 5) (Some 2024) (Some 3) None) (Some "revisar") = (Err Forbidden, empty_table).
Proof.
  apply (sendToReview_self_forbidden row_default org_two empty_table worker20 0
           (mkMarkReq (Some 5) (Some 2024) (Some 3) None) (Some "revisar") 5 2024 3);
    reflexivity.
Defined.

(** Approving twice, or sending to review twice, with the same request at
    the same time, answers the same and leaves the same table as doing it
    once. *)
Theorem mark_idempotent (dflt : row) (o : org) (t : table) (u : user) (now : Z)
  (req : mark_req) (motivo : option string) :
  (let t1 := snd (visto dflt o t u now req) in
   fst (visto dflt o t1 u now req) = fst (visto dflt o t u now req) /\
   forall k, snd (visto dflt o t1 u now req) k = t1 k) /\
  (let t1 := snd (sendToReview dflt o t u now req motivo) in
   fst (sendToReview dflt o t1 u now req motivo) = fst (sendToReview dflt o t u now req motivo) /\
   forall k, snd (sendToReview dflt o t1 u now req motivo) k = t1 k).
Proof.
  split; cbv zeta; unfold visto, sendToReview;
    destruct (m_kpi_id req), (m_anio req), (m_mes req); try (split; reflexivity).
  - destruct (negb _); [split; reflexivity|]. simpl. split; [reflexivity|].
    intro k. apply upsert_idem. intro r. reflexivity.
  - destruct (negb _); [split; reflexivity|]. destruct (_ && _)%bool; [split; reflexivity|].
    simpl. split; [reflexivity|]. intro k. apply upsert_idem. intro r. reflexivity.
Qed.

Lemma substring_0_length (m : nat) (s : string) : (String.length (substring 0 m s) <= m)%nat.
Proof.
  revert m. induction s as [|c s IH]; intros [|m]; simpl; try lia.
  specialize (IH m). lia.
Qed.

(** After a successful [/visto] the row is approved (status APROBADO in
    the export) by the actor at that time, with the review columns
    cleared and value, colour and comment kept. After a successful
    [/review] it is open again ([visto_bueno = 0], approval cleared), the
    review columns name the actor, the time and the reason (trimmed and
    cut to 255 characters), value, colour and comment are kept, and the
    export shows EN REVISIÓN when the actor's id is not 0. *)
Theorem mark_post (dflt : row) (o : org) (t : table) (u : user) (now : Z)
  (req : mark_req) (motivo : option string) (kid anio mes : Z) :
  m_kpi_id req = Some kid -> m_anio req = Some anio -> m_mes req = Some mes ->
  let key := (target_of u (m_empleado_id req), kid, anio, mes) in
  let old := match t key with Some r => r | None => dflt end in
  (fst (visto dflt o t u now req) = Ok tt ->
   exists r', snd (visto dflt o t u now req) key = Some r' /\
     statusFromResult (Some r') = "APROBADO" /\
     visto_bueno r' = 1 /\ visto_por r' = Some (u_id u) /\ visto_fecha r' = Some now /\
     revision_por r' = None /\ revision_fecha r' = None /\ revision_motivo r' = None /\
     valor r' = valor old /\ r_color r' = r_color old /\ comentario r' = comentario old) /\
  (fst (sendToReview dflt o t u now req motivo) = Ok tt ->
   exists r', snd (sendToReview dflt o t u now req motivo) key = Some r' /\
     (u_id u <> 0 -> statusFromResult (Some r') = "EN REVISIÓN") /\
     visto_bueno r' = 0 /\ visto_por r' = None /\ visto_fecha r' = None /\
     revision_por r' = Some (u_id u) /\ revision_fecha r' = Some now /\
     revision_motivo r' = Some (motivo_of motivo) /\
     (String.length (motivo_of motivo) <= 255)%nat /\
     valor r' = valor old /\ r_color r' = r_color old /\ comentario r' = comentario old).
Proof.
  intros Hk Ha Hm key old.
  assert (Hup : forall f, upsert dflt t key f key = Some (f old)).
  { intro f. unfold upsert, old. destruct (t key); apply tbl_set_same. }
  split.
  - unfold visto. rewrite Hk, Ha, Hm. fold key.
    destruct (negb _); [discriminate|]. intros _. simpl. rewrite Hup.
    eexists. split; [reflexivity|]. repeat split; reflexivity.
  - unfold sendToReview. rewrite Hk, Ha, Hm. fold key.
    destruct (negb _); [discriminate|]. destruct (_ && _)%bool; [discriminate|].
    intros _. simpl. rewrite Hup.
    eexists. split; [reflexivity|]. split.
    + intro Hu. simpl. rewrite (proj2 (Z.eqb_neq _ _) Hu). reflexivity.
    + repeat split; try reflexivity. apply substring_0_length.
Qed.

Lemma mark_post_witness :
  exists r', snd (sendToReview row_default org_two empty_table boss10 7
                    (mkMarkReq (Some 5) (Some 2024) (Some 3) (Some 20)) (Some "  revisar  "))
               (20, 5, 2024, 3) = Some r' /\
    (u_id boss10 <> 0 -> statusFromResult (Some r') = "EN REVISIÓN") /\
    visto_bueno r' = 0 /\ visto_por r' = None /\ visto_fecha r' = None /\
    revision_por r' = Some (u_id boss10) /\ revision_fecha r' = Some 7 /\
    revision_motivo r' = Some (motivo_of (Some "  revisar  ")) /\
    (String.length (motivo_of (Some "  revisar  ")) <= 255)%nat /\
    valor r' = valor row_default /\ r_color r' = r_color row_default /\
    comentario r' = comentario row_default.
Proof.
  apply (proj2 (mark_post row_default org_two empty_table boss10 7
                  (mkMarkReq (Some 5) (Some 2024) (Some 3) (Some 20)) (Some "  revisar  ") 5 2024 3
                  eq_refl eq_refl eq_refl)).
  vm_compute. reflexivity.
Defined.

(** [/save] never changes the status the export shows for a row: an
    existing row keeps its status, and a row it creates has the status of
    the column defaults. *)
Theorem save_keeps_status (num_to_string : Q -> string) (dflt : row) (kpis : list (Z * kpi))
  (o : org) (t : table) (u : user) (req : save_req) (k : rkey) :
  (t k <> None -> statusFromResult (snd (save num_to_string dflt kpis o t u req) k)
                  = statusFromResult (t k)) /\
  (t k = None -> snd (save num_to_string dflt kpis o t u req) k = None \/
                 statusFromResult (snd (save num_to_string dflt kpis o t u req) k)
                 = statusFromResult (Some dflt)).
Proof.
  destruct (save_table num_to_string dflt kpis o t u req)
    as [E|[kid [anio [mes [f [_ [_ [_ [Hf E]]]]]]]]]; rewrite E.
  - split; [reflexivity|]. intros Hn. left. exact Hn.
  - set (key := (target_of u (s_empleado_id req), kid, anio, mes)).
    assert (Hst : forall r, statusFromResult (Some (f r)) = statusFromResult (Some r)).
    { intro r. destruct (Hf r) as [H1 [_ H3]]. simpl. rewrite H1, H3. reflexivity. }
    destruct (rkey_eqb key k) eqn:Ek.
    + apply rkey_eqb_eq in Ek. subst k. unfold upsert.
      destruct (t key) as [r|] eqn:Tk; rewrite tbl_set_same, Hst.
      * split; [reflexivity|discriminate].
      * split; [intro H; contradiction|]. intros _. right. reflexivity.
    + assert (Hne : key <> k) by (intro H; rewrite <- H in Ek; unfold key, rkey_eqb in Ek;
        rewrite !Z.eqb_refl in Ek; discriminate).
      rewrite (upsert_other _ _ _ _ _ Hne). split; [reflexivity|]. intro Hn. left. exact Hn.
Qed.

(** ** The dashboard period and the feedback route *)

Definition empty_fb : fb_table := fun _ => None.
Definition month13_req : feedback_req :=
  mkFeedbackReq (Some 2024) (Some 13) (Some "ok") None (Some "") None.


(** The dashboard period always has a month in 1-12; a year given and not
    [0] is kept, a month given in 1-12 is kept, and a missing or [0] year
    is the year of the default period. *)
Theorem selectPeriod_spec (anio mes : option Z) (now : date) :
  0 <= month0 now <= 11 ->
  1 <= snd (selectPeriod anio mes now) <= 12 /\
  (forall y, anio = Some y -> y <> 0 -> fst (selectPeriod anio mes now) = y) /\
  (forall m, mes = Some m -> 1 <= m <= 12 -> snd (selectPeriod anio mes now) = m) /\
  ((anio = None \/ anio = Some 0) -> fst (selectPeriod anio mes now) = fst (getDefaultPeriod now)).
Proof.
  intro Hm.
  assert (Hd : 1 <= snd (getDefaultPeriod now) <= 12).
  { unfold getDefaultPeriod.
    destruct (day_of_month now <=? 10); [destruct (month0 now + 1 - 1 <? 1) eqn:E|];
      simpl; try apply Z.ltb_ge in E; lia. }
  unfold selectPeriod. simpl. split; [|split; [|split]].
  - destruct mes as [m|]; [|exact Hd].
    destruct (Z.eqb m 0 || (m <? 1) || (12 <? m))%bool eqn:E; [exact Hd|].
    apply orb_false_iff in E as [E E3]. apply orb_false_iff in E as [_ E2].
    apply Z.ltb_ge in E2, E3. lia.
  - intros y -> Hy. rewrite (proj2 (Z.eqb_neq y 0) Hy). reflexivity.
  - intros m -> Hr. replace (Z.eqb m 0 || (m <? 1) || (12 <? m))%bool with false; [reflexivity|].
    symmetry. apply orb_false_iff. split; [apply orb_false_iff; split|];
      [apply Z.eqb_neq | apply Z.ltb_ge | apply Z.ltb_ge]; lia.
  - intros [-> | ->]; reflexivity.
Qed.

Lemma selectPeriod_spec_witness :
  1 <= snd (selectPeriod (Some 0) (Some 13) (mkDate 2024 0 5)) <= 12 /\
  (forall y, Some 0 = Some y -> y <> 0 -> fst (selectPeriod (Some 0) (Some 13) (mkDate 2024 0 5)) = y) /\
  (forall m, Some 13 = Some m -> 1 <= m <= 12 -> snd (selectPeriod (Some 0) (Some 13) (mkDate 2024 0 5)) = m) /\
  ((Some 0 = None \/ Some 0 = Some 0) ->
     fst (selectPeriod (Some 0) (Some 13) (mkDate 2024 0 5)) = fst (getDefaultPeriod (mkDate 2024 0 5))).
Proof.
  apply (selectPeriod_spec (Some 0) (Some 13) (mkDate 2024 0 5)). simpl. lia.
Defined.

Lemma fb_set_same (t : fb_table) (k : Z * Z * Z) (f : feedback) : fb_set t k f k = Some f.
Proof.
  unfold fb_set. destruct k as [[e y] m]. simpl. rewrite !Z.eqb_refl. reflexivity.
Qed.

Lemma fb_set_other (t : fb_table) (k k' : Z * Z * Z) (f : feedback) :
  k <> k' -> fb_set t k f k' = t k'.
Proof.
  intro H. unfold fb_set. destruct k as [[e y] m], k' as [[e' y'] m']. simpl.
  destruct (Z.eqb_spec e e'), (Z.eqb_spec y y'), (Z.eqb_spec m m'); simpl; try reflexivity.
  subst. contradiction.
Qed.

(** [/dashboard/feedback/save] succeeds exactly when [anio] and [mes] are
    numbers other than [0] (any such month, 13 included) and the actor may
    access the target employee. It then writes the three texts, empty when
    missing, at [(target, anio, mes)] and nothing else; on an error it
    writes nothing.  The hierarchy is acyclic, so that the access check of
    the program returns. *)
Theorem feedback_save_spec (o : org) (t : fb_table) (u : user) (req : feedback_req) :
  acyclic (puestos o) ->
  (fst (feedback_save o t u req) = Ok tt <->
   exists y m, f_anio req = Some y /\ f_mes req = Some m /\ y <> 0 /\ m <> 0 /\
     canAccessEmployeeTree o u (target_of u (f_empleado_id req)) = true) /\
  (forall e, fst (feedback_save o t u req) = Err e -> snd (feedback_save o t u req) = t) /\
  (forall y m, f_anio req = Some y -> f_mes req = Some m -> fst (feedback_save o t u req) = Ok tt ->
     snd (feedback_save o t u req) (target_of u (f_empleado_id req), y, m)
     = Some (mkFeedback (or_default (f_fortalezas req) "") (or_default (f_oportunidades req) "")
                        (or_default (f_compromisos req) "")) /\
     forall k', k' <> (target_of u (f_empleado_id req), y, m) -> snd (feedback_save o t u req) k' = t k').
Proof.
  intros _.
  unfold feedback_save. split; [|split].
  - destruct (f_anio req) as [y|], (f_mes req) as [m|];
      try (split; [discriminate|intros [y' [m' [H1 [H2 _]]]]; discriminate]).
    destruct (Z.eqb_spec y 0), (Z.eqb_spec m 0); simpl;
      try (split; [discriminate|intros [y' [m' [H1 [H2 [H3 [H4 _]]]]]]; congruence]).
    destruct (canAccessEmployeeTree o u _) eqn:C; simpl.
    + split; [intros _; exists y, m; repeat split; assumption|reflexivity].
    + split; [discriminate|intros [y' [m' [_ [_ [_ [_ H]]]]]]; discriminate].
  - intros e. destruct (f_anio req) as [y|], (f_mes req) as [m|]; try reflexivity.
    destruct (Z.eqb y 0 || Z.eqb m 0)%bool; [reflexivity|].
    destruct (negb _); [reflexivity|discriminate].
  - intros y m -> -> H. destruct (Z.eqb y 0 || Z.eqb m 0)%bool; [discriminate|].
    destruct (negb _); [discriminate|]. simpl. split.
    + apply fb_set_same.
    + intros k' Hk. apply fb_set_other. intro E. apply Hk. symmetry. exact E.
Qed.

Lemma feedback_save_spec_witness :
  snd (feedback_save org_two empty_fb worker20 month13_req) (20, 2024, 13)
  = Some (mkFeedback "ok" "" "") /\
  (forall k', k' <> (20, 2024, 13) ->
     snd (feedback_save org_two empty_fb worker20 month13_req) k' = empty_fb k').
Proof.
  apply (proj2 (proj2 (feedback_save_spec org_two empty_fb worker20 month13_req org_two_acyclic)) 2024 13);
    reflexivity.
Defined.

(** ** Thresholds as [/kpis/create] and [/kpis/update/:id] store them *)

(** [s.includes(c)] for one character. *)
Fixpoint str_has (c : ascii) (s : string) : bool :=
  match s with
  | EmptyString => false
  | String d r => (Ascii.eqb c d || str_has c r)%bool
  end.

Lemma str_has_app (c : ascii) (a b : string) : str_has c (a ++ b) = (str_has c a || str_has c b)%bool.
Proof.
  induction a as [|d a IH]; simpl; [reflexivity|]. rewrite IH, orb_assoc. reflexivity.
Qed.

Lemma rev_str_has (c : ascii) (s acc : string) :
  str_has c (rev_str s acc) = (str_has c s || str_has c acc)%bool.
Proof.
  revert acc. induction s as [|d s IH]; intro acc; simpl; [reflexivity|].
  rewrite IH. simpl. destruct (Ascii.eqb c d), (str_has c s), (str_has c acc); reflexivity.
Qed.

Lemma trim_start_has (c : ascii) (s : string) :
  is_js_space c = false -> str_has c s = true -> str_has c (trim_start s) = true.
Proof.
  intro Hc. induction s as [|d s IH]; simpl; [discriminate|]. intro H.
  destruct (is_js_space d) eqn:Hd; [|exact H].
  apply IH. destruct (Ascii.eqb_spec c d) as [->|_]; [congruence|exact H].
Qed.

Lemma trim_has (c : ascii) (s : string) :
  is_js_space c = false -> str_has c s = true -> str_has c (trim s) = true.
Proof.
  intros Hc H. unfold trim. rewrite rev_str_has. apply orb_true_iff. left.
  apply trim_start_has; [exact Hc|]. rewrite rev_str_has. apply orb_true_iff. left.
  apply trim_start_has; assumption.
Qed.

Lemma read_digits_has (c : ascii) (s : string) (acc : Z) (k : nat) :
  digit_of c = None -> str_has c s = true -> str_has c (snd (read_digits s acc k)) = true.
Proof.
  intro Hc. revert acc k. induction s as [|d s IH]; intros acc k H; simpl in *; [discriminate|].
  destruct (digit_of d) eqn:Hd; simpl; [|exact H].
  apply IH. destruct (Ascii.eqb_spec c d) as [->|_]; [congruence|exact H].
Qed.

Lemma read_radix_has (c : ascii) (radix : Z) (s : string) (acc : Z) (k : nat) :
  radix_digit radix c = None -> str_has c s = true ->
  str_has c (snd (read_radix radix s acc k)) = true.
Proof.
  intro Hc. revert acc k. induction s as [|d s IH]; intros acc k H; simpl in *; [discriminate|].
  destruct (radix_digit radix d) eqn:Hd; simpl; [|exact H].
  apply IH. destruct (Ascii.eqb_spec c d) as [->|_]; [congruence|exact H].
Qed.

Lemma read_sign_comma (s : string) :
  str_has ","%char s = true -> str_has ","%char (snd (read_sign s)) = true.
Proof.
  destruct s as [|d s]; [discriminate|].
  destruct d as [[] [] [] [] [] [] [] []]; simpl; intro H; exact H.
Qed.

(** The integer part and the optional fraction of [unsigned_decimal]. *)
Lemma fraction_comma (s2 : string) (ip : Z) :
  str_has ","%char s2 = true ->
  str_has ","%char (snd (match s2 with
                         | String "."%char r => read_digits r ip O
                         | _ => (ip, O, s2)
                         end)) = true.
Proof.
  destruct s2 as [|d r]; [discriminate|].
  destruct d as [[] [] [] [] [] [] [] []]; intro H; simpl in *; try exact H.
  apply read_digits_has; [reflexivity|exact H].
Qed.

Lemma unsigned_decimal_comma (s : string) :
  str_has ","%char s = true -> unsigned_decimal s = None.
Proof.
  intro H. unfold unsigned_decimal.
  destruct (read_digits s 0 O) as [[ip ki] s2] eqn:E1.
  assert (H2 : str_has ","%char s2 = true).
  { change s2 with (snd (ip, ki, s2)). rewrite <- E1. apply read_digits_has; [reflexivity|exact H]. }
  pose proof (fraction_comma s2 ip H2) as H3.
  destruct (match s2 with String "."%char r => read_digits r ip O | _ => (ip, O, s2) end)
    as [[mant kf] s3].
  simpl in H3. destruct (Nat.eqb (ki + kf) 0); [reflexivity|].
  destruct s3 as [|c r]; [discriminate|].
  destruct (Ascii.eqb c "e"%char || Ascii.eqb c "E"%char)%bool eqn:Ee; [|reflexivity].
  assert (Hr : str_has ","%char r = true).
  { cbn [str_has] in H3. destruct (Ascii.eqb_spec "," c) as [<-|_]; [discriminate Ee|exact H3]. }
  pose proof (read_sign_comma r Hr) as Hr'.
  destruct (read_sign r) as [sg r']. simpl in Hr'.
  pose proof (read_digits_has ","%char r' 0 O eq_refl Hr') as Hr''.
  destruct (read_digits r' 0 O) as [[v k] r'']. simpl in Hr''.
  destruct (Nat.eqb k 0); [reflexivity|]. destruct r''; [discriminate|reflexivity].
Qed.

Lemma non_decimal_comma (s : string) :
  str_has ","%char s = true -> non_decimal s = None.
Proof.
  destruct s as [|a s]; [reflexivity|].
  destruct a as [[] [] [] [] [] [] [] []]; try reflexivity.
  destruct s as [|c r]; [reflexivity|]. intro H.
  unfold non_decimal.
  destruct (Ascii.eqb_spec "," c) as [<-|Hc]; [reflexivity|].
  assert (Hr : str_has ","%char r = true).
  { cbn [str_has] in H. rewrite orb_false_l in H.
    destruct (Ascii.eqb_spec "," c); [contradiction|exact H]. }
  match goal with |- (if Z.eqb ?R 0 then _ else _) = _ => set (radix := R) end.
  destruct (Z.eqb radix 0); [reflexivity|].
  pose proof (read_radix_has ","%char radix r 0 O eq_refl Hr) as Hrest.
  destruct (read_radix radix r 0 O) as [[v k] rest]. simpl in Hrest.
  destruct (Nat.eqb k 0); [reflexivity|]. destruct rest; [discriminate|reflexivity].
Qed.

(** [Number(s)] is [NaN] for a string holding a comma. *)
Lemma StringToNumber_comma (s : string) :
  str_has ","%char s = true -> StringToNumber s = JNaN.
Proof.
  intro H. unfold StringToNumber.
  pose proof (trim_has ","%char s eq_refl H) as Ht.
  destruct (String.eqb_spec (trim s) "") as [E|_]; [rewrite E in Ht; discriminate|].
  rewrite (non_decimal_comma _ Ht).
  pose proof (read_sign_comma _ Ht) as Hr.
  destruct (read_sign (trim s)) as [sg r]. simpl in Hr.
  destruct (String.eqb_spec r "Infinity") as [->|_]; [discriminate|].
  rewrite (unsigned_decimal_comma _ Hr). reflexivity.
Qed.

Lemma replace_first_absent (c : ascii) (r s : string) :
  str_has c s = false -> replace_first c r s = s.
Proof.
  induction s as [|d s IH]; simpl; [reflexivity|]. intro H.
  apply orb_false_iff in H as [H1 H2]. rewrite H1, IH by exact H2. reflexivity.
Qed.

Lemma replace_first_app (c : ascii) (r a b : string) :
  str_has c a = false -> replace_first c r (a ++ String c b) = a ++ r ++ b.
Proof.
  induction a as [|d a IH]; simpl; intro H.
  - rewrite Ascii.eqb_refl. reflexivity.
  - apply orb_false_iff in H as [H1 H2]. rewrite H1, IH by exact H2. reflexivity.
Qed.

Lemma toNullableNumber_str (s : string) :
  s <> "" ->
  toNullableNumber (FStr s)
  = match StringToNumber (replace_first ","%char "." s) with JFin q => Some q | _ => None end.
Proof.
  destruct s; [contradiction|reflexivity].
Qed.

Lemma clampPct100_cases (v : field) :
  clampPct100 v = FNull \/ exists x, clampPct100 v = FNum (js_min100 x).
Proof.
  destruct v as [| |[|c s]|x]; unfold clampPct100; try (left; reflexivity);
    destruct (js_Number_field _) as [q|b|]; try (left; reflexivity); right; eexists; reflexivity.
Qed.

(** The threshold of a percentage KPI is stored as [NULL] or as a number
    at most 100. *)
Theorem stored_threshold_pct_le_100 (unidad : option string) (v : field) (q : Q) :
  is_porcentaje unidad = true -> stored_threshold unidad v = Some q -> (q <= 100)%Q.
Proof.
  intros Hp H. unfold stored_threshold in H. rewrite Hp in H.
  destruct (clampPct100_cases v) as [E|[x E]]; rewrite E in H; [discriminate|].
  destruct x as [q0|[|]|]; simpl in H; try discriminate; injection H as <-.
  - destruct (Qle_bool q0 100) eqn:B; [apply Qle_bool_iff; exact B|apply Qle_refl].
  - apply Qle_refl.
Qed.

Lemma stored_threshold_pct_le_100_witness :
  is_porcentaje (Some "Porcentaje") = true /\
  stored_threshold (Some "Porcentaje") (FStr "150") = Some 100%Q /\ (100 <= 100)%Q.
Proof.
  split; [reflexivity|]. split; [vm_compute; reflexivity|].
  apply (stored_threshold_pct_le_100 (Some "Porcentaje") (FStr "150")); vm_compute; reflexivity.
Defined.

(** A decimal comma in a threshold is read as a point for a KPI that is
    not a percentage, but a percentage threshold holding a comma is
    stored as [NULL]: [clampPct100] calls [Number] before the comma is
    replaced. *)
Theorem stored_threshold_comma (unidad : option string) (a b s : string) :
  (is_porcentaje unidad = false -> str_has ","%char a = false -> str_has ","%char b = false ->
   stored_threshold unidad (FStr (a ++ "," ++ b)) = stored_threshold unidad (FStr (a ++ "." ++ b))) /\
  (is_porcentaje unidad = true -> str_has ","%char s = true -> stored_threshold unidad (FStr s) = None).
Proof.
  split.
  - intros Hp Ha Hb. unfold stored_threshold. rewrite Hp.
    rewrite !toNullableNumber_str by (destruct a; discriminate).
    simpl ("," ++ b). rewrite (replace_first_app _ _ _ _ Ha).
    rewrite (replace_first_absent _ _ (a ++ "." ++ b)); [reflexivity|].
    rewrite str_has_app, Ha. exact Hb.
  - intros Hp Hs. unfold stored_threshold. rewrite Hp.
    destruct s as [|c r]; [discriminate|].
    unfold clampPct100. simpl js_Number_field. rewrite (StringToNumber_comma _ Hs). reflexivity.
Qed.

Lemma stored_threshold_comma_witness :
  stored_threshold (Some "unidades") (FStr ("90" ++ "," ++ "5"))
  = stored_threshold (Some "unidades") (FStr ("90" ++ "." ++ "5")) /\
  stored_threshold (Some "porcentaje") (FStr "90,5") = None.
Proof.
  split.
  - apply (proj1 (stored_threshold_comma (Some "unidades") "90" "5" "90,5")); reflexivity.
  - apply (proj2 (stored_threshold_comma (Some "porcentaje") "90" "5" "90,5")); reflexivity.
Defined.

(** A threshold made only of white space is stored as [0], for every
    unit: [Number] of a blank string is [0]. *)
Theorem stored_threshold_blank (unidad : option string) (s : string) :
  s <> "" -> trim s = "" -> stored_threshold unidad (FStr s) = Some 0%Q.
Proof.
  intros Hs Ht.
  assert (HN : StringToNumber s = JFin 0) by (unfold StringToNumber; rewrite Ht; reflexivity).
  unfold stored_threshold. destruct (is_porcentaje unidad).
  - destruct s as [|c r]; [contradiction|].
    unfold clampPct100. simpl js_Number_field. rewrite HN. reflexivity.
  - rewrite (toNullableNumber_str _ Hs).
    rewrite replace_first_absent; [rewrite HN; reflexivity|].
    destruct (str_has ","%char s) eqn:E; [|reflexivity].
    pose proof (trim_has ","%char s eq_refl E) as H. rewrite Ht in H. discriminate.
Qed.

Lemma stored_threshold_blank_witness :
  stored_threshold (Some "porcentaje") (FStr "  ") = Some 0%Q.
Proof.
  apply stored_threshold_blank; [discriminate|reflexivity].
Defined.

(** ** The KPI list of a weight assignment *)

Lemma existsb_eqb_In (x : string) (l : list string) :
  existsb (String.eqb x) l = true <-> In x l.
Proof.
  rewrite existsb_exists. split.
  - intros [y [Hy E]]. apply String.eqb_eq in E. subst. exact Hy.
  - intro H. exists x. split; [exact H|apply String.eqb_refl].
Qed.

Lemma dedup_go_spec (seen l : list string) :
  NoDup (dedup_go seen l) /\
  forall x, In x (dedup_go seen l) <-> In x l /\ ~ In x seen.
Proof.
  revert seen. induction l as [|id r IH]; intro seen; simpl.
  - split; [constructor|]. intro x. tauto.
  - destruct (existsb (String.eqb id) seen) eqn:E.
    + apply existsb_eqb_In in E. destruct (IH seen) as [Hn Hm]. split; [exact Hn|].
      intro x. rewrite Hm. split; [tauto|]. intros [[<-|Hx] Hs]; [contradiction|tauto].
    + assert (E' : ~ In id seen) by (intro H; apply existsb_eqb_In in H; congruence).
      destruct (IH (id :: seen)) as [Hn Hm]. split.
      * constructor; [|exact Hn]. rewrite Hm. simpl. tauto.
      * intro x. simpl. rewrite Hm. simpl.
        destruct (String.eqb_spec id x) as [<-|Hne]; [tauto|].
        split; [intros [H|[H1 H2]]; [congruence|tauto]|].
        intros [[H|H] Hs]; [congruence|]. right. split; [exact H|]. intros [H'|H']; [congruence|tauto].
Qed.

(** The deduplicated [kpi_ids] hold each id of the request once, and no
    other id. *)
Theorem dedup_kpi_ids_spec (kpi_ids : list string) :
  NoDup (dedup_kpi_ids kpi_ids) /\ forall x, In x (dedup_kpi_ids kpi_ids) <-> In x kpi_ids.
Proof.
  destruct (dedup_go_spec [] kpi_ids) as [Hn Hm]. split; [exact Hn|].
  intro x. unfold dedup_kpi_ids. rewrite Hm. simpl. tauto.
Qed.




(** ** Editing a position *)


Definition puestos_AB : list puesto := [mkPuesto 1 None; mkPuesto 2 (Some 1)].


(** The edit only refuses a position reporting to itself: an accepted
    edit can close a longer cycle in an acyclic hierarchy. *)
Theorem editar_puesto_makes_cycle :
  exists ps id nombre responde_a,
    acyclic ps /\ fst (editar_puesto ps id nombre responde_a) = Ok tt /\
    reaches (snd (editar_puesto ps id nombre responde_a)) id id.
Proof.
  exists puestos_AB, 1, (Some "A"), (Some 2). split; [|split; [reflexivity|]].
  - apply acyclic_decreasing. intros p r Hp Hr. simpl in Hp.
    destruct Hp as [<-|[<-|[]]]; simpl in Hr; [discriminate|]. injection Hr as <-. simpl. lia.
  - simpl. apply (reach_up _ (mkPuesto 1 (Some 2)) 2 1); [left; reflexivity|reflexivity|].
    apply (reach_direct _ (mkPuesto 2 (Some 1)) 1); [right; left; reflexivity|reflexivity].
Qed.
